(** * Store-performance dashboard: a shallow embedding of the React shell,
      the spreadsheet import, the chat assistant and the map view.

    The development follows the source files:
    - [Types]             (types.ts)
    - [FileUpload]        (components/FileUpload.tsx)
    - [App]               (App.tsx)
    - [Chatbot]           (components/Chatbot.tsx)
    - [MapVisualization]  (components/MapVisualization.tsx)

    React state ([useState], [useRef]) and the module-level variables are
    threaded explicitly as records; vendor SDKs (XLSX, the AI provider, the
    mapping provider), the constants of constants.ts and JS builtins
    ([parseFloat], [String.prototype.trim]) are parameters. *)

From Stdlib Require Import ZArith Floats.SpecFloat.
From stdpp Require Import base option list strings pretty.

#[local] Set Warnings "-clear-no-such-hyp".

(** ** JavaScript values *)

(** A JS [number] is an IEEE-754 binary64 value; [spec_float] is the
    Standard Library's inductive description of those values. *)
Abbreviation number := spec_float.

(** [x === y] on numbers: IEEE equality, so [NaN === NaN] is false and
    [+0 === -0] is true. *)
Definition strict_eq (x y : number) : bool := SFeqb x y.

Definition NaN : number := S754_nan.

(** The representable binary64 values. *)
Definition binary64 (x : number) : bool := valid_binary 53 1024 x.

(** Truthiness of an optional string ([undefined] and [""] are falsy). *)
Definition truthy (o : option string) : bool :=
  match o with
  | Some (String _ _) => true
  | _ => false
  end.

(** A settled promise. *)
Inductive Settled (A : Type) : Type :=
  | Resolved (a : A)
  | Rejected (reason : string).
Arguments Resolved {A} a.
Arguments Rejected {A} reason.

(** [Date] values, as milliseconds since the epoch. *)
Definition Date := Z.

(** ** types.ts *)
Module Types.

Record StoreData := mkStoreData {
  id : string;
  city : string;
  latitude : number;
  longitude : number;
  sales : number;
  profit : number;
  employees : number
}.

(** The fields [latitude] and [longitude] of [LatLng]; the names are
    prefixed because [StoreData] has fields of the same names. *)
Record LatLng := mkLatLng {
  lat_latitude : number;
  lat_longitude : number
}.

Inductive Role := user | model | system.

(** [parts: Part[] | string]: plain text, or the provider's structured
    payload (a list of parts carrying text). *)
Inductive Parts :=
  | PString (s : string)
  | PParts (ps : list string).

(** [functionCalls] is declared in the interface but no code path of the
    repository writes or reads it; it is left out of the record. *)
Record ChatMessage := mkChatMessage {
  role : Role;
  parts : Parts;
  timestamp : Date;
  groundingUris : option (list string)
}.

End Types.

Global Instance Role_eq_dec : EqDecision Types.Role.
Proof. solve_decision. Defined.

(** ** components/FileUpload.tsx *)
Module FileUpload.

(** A cell of a row object of [XLSX.utils.sheet_to_json]: absent when the
    column is missing, otherwise the raw value of the cell. *)
Inductive Cell :=
  | CellUndefined
  | CellNumber (n : number)
  | CellString (s : string)
  | CellBoolean (b : bool).

(** One row object of the first sheet.  The source types rows as [any]; the
    city is typed here as the [StoreData] interface declares it. *)
Record Row := mkRow {
  City : string;
  Latitude : Cell;
  Longitude : Cell;
  Sales : Cell;
  Profit : Cell;
  Employees : Cell
}.

(** Outcome of [reader.readAsArrayBuffer(file)]: [onload] with the bytes,
    or [onerror]. *)
Inductive ReadOutcome :=
  | ReaderLoad (data : list Byte.byte)
  | ReaderError.

Definition parse_error_message : string :=
  "Error parsing Excel file. Please ensure it's a valid Excel file with expected columns (City, Latitude, Longitude, Sales, Profit, Employees).".

Definition read_error_message : string := "Error reading file.".

Section Parse.

(** [parseFloat] is the JS builtin. *)
Variable parseFloat : Cell -> number.

(** [XLSX.read] followed by [sheet_to_json] on the first sheet: [None] when
    either call throws. *)
Variable sheet_to_json : list Byte.byte -> option (list Row).

(** The callback of [json.map((row, index) => ...)]. *)
Definition row_to_store (index : nat) (row : Row) : Types.StoreData :=
  {| Types.id := "store-" +:+ pretty index;
     Types.city := City row;
     Types.latitude := parseFloat (Latitude row);
     Types.longitude := parseFloat (Longitude row);
     Types.sales := parseFloat (Sales row);
     Types.profit := parseFloat (Profit row);
     Types.employees := parseFloat (Employees row) |}.

Definition parseExcelFile (file : ReadOutcome) : Settled (list Types.StoreData) :=
  match file with
  | ReaderLoad data =>
      match sheet_to_json data with
      | Some json => Resolved (imap row_to_store json)
      | None => Rejected parse_error_message
      end
  | ReaderError => Rejected read_error_message
  end.

(** Component state of [FileUpload]. *)
Record State := mkState {
  fileName : option string;
  loading : bool;
  error : option string
}.

(** [handleUpload], run to completion.  The second component is the
    argument of the [onDataUpload] call, if the call is made.  [file] is
    [None] when the file input holds no file. *)
Definition handleUpload (file : option ReadOutcome) (st : State)
  : State * option (list Types.StoreData) :=
  match file with
  | None =>
      ({| fileName := fileName st; loading := loading st;
          error := Some "Please select an Excel file to upload." |}, None)
  | Some f =>
      match parseExcelFile f with
      | Resolved data =>
          ({| fileName := fileName st; loading := false; error := None |},
           Some data)
      | Rejected err =>
          ({| fileName := fileName st; loading := false; error := Some err |},
           None)
      end
  end.

End Parse.

(** The values of the three [useState] cells at mount. *)
Definition initial : State :=
  {| fileName := None; loading := false; error := None |}.

(** [handleFileChange]: [file] is the name of the chosen file, or [None]
    when the input holds no file. *)
Definition handleFileChange (file : option string) (st : State) : State :=
  match file with
  | Some name =>
      {| fileName := Some name; loading := loading st; error := None |}
  | None =>
      {| fileName := None; loading := loading st; error := error st |}
  end.

(** [disabled={!fileName || loading}] of the upload button. *)
Definition upload_disabled (st : State) : bool :=
  negb (truthy (fileName st)) || loading st.

End FileUpload.

(** ** App.tsx *)
Module App.

Record State := mkState {
  stores : list Types.StoreData;
  selectedStore : option Types.StoreData;
  userLocation : option Types.LatLng;
  showGeolocationPrompt : bool
}.

(** The initial values of the four [useState] cells. *)
Definition initial : State :=
  {| stores := []; selectedStore := None; userLocation := None;
     showGeolocationPrompt := true |}.

Definition handleDataUpload (data : list Types.StoreData) (st : State) : State :=
  {| stores := data;
     selectedStore := None;
     userLocation := userLocation st;
     showGeolocationPrompt := showGeolocationPrompt st |}.

Definition handleStoreSelect (store : option Types.StoreData) (st : State) : State :=
  {| stores := stores st;
     selectedStore := store;
     userLocation := userLocation st;
     showGeolocationPrompt := showGeolocationPrompt st |}.

Definition clearSelection (st : State) : State :=
  {| stores := stores st;
     selectedStore := None;
     userLocation := userLocation st;
     showGeolocationPrompt := showGeolocationPrompt st |}.

(** The two callbacks of [getCurrentPosition]. *)
Definition geolocationSuccess (coords : Types.LatLng) (st : State) : State :=
  {| stores := stores st;
     selectedStore := selectedStore st;
     userLocation := Some coords;
     showGeolocationPrompt := false |}.

Definition geolocationError (st : State) : State :=
  {| stores := stores st;
     selectedStore := selectedStore st;
     userLocation := userLocation st;
     showGeolocationPrompt := false |}.

(** The guard of the geolocation effect: whether [getCurrentPosition] is
    called when the effect runs.  [supported] is [navigator.geolocation]. *)
Definition geolocation_effect (supported : bool) (st : State) : bool :=
  supported && showGeolocationPrompt st.

(** [FileUpload] is rendered with [onDataUpload = handleDataUpload]: a
    press of the upload button, seen from the shell. *)
Definition upload (parseFloat : FileUpload.Cell -> number)
    (sheet_to_json : list Byte.byte -> option (list FileUpload.Row))
    (file : option FileUpload.ReadOutcome)
    (fu : FileUpload.State) (st : State) : FileUpload.State * State :=
  match FileUpload.handleUpload parseFloat sheet_to_json file fu with
  | (fu', Some data) => (fu', handleDataUpload data st)
  | (fu', None) => (fu', st)
  end.

End App.

(** ** components/Chatbot.tsx *)
Module Chatbot.

(** *** The provider's response, as far as the component reads it *)

Record ReviewSnippet := mkReviewSnippet {
  snippet_uri : option string
}.

Record PlaceAnswerSource := mkPlaceAnswerSource {
  reviewSnippets : option (list ReviewSnippet)
}.

(** [placeAnswerSources] is [Some] exactly when [Array.isArray] holds. *)
Record GroundingChunkMaps := mkGroundingChunkMaps {
  maps_uri : option string;
  placeAnswerSources : option (list PlaceAnswerSource)
}.

Record GroundingChunkWeb := mkGroundingChunkWeb {
  web_uri : option string
}.

Record GroundingChunk := mkGroundingChunk {
  web : option GroundingChunkWeb;
  maps : option GroundingChunkMaps
}.

Record GroundingMetadata := mkGroundingMetadata {
  groundingChunks : option (list GroundingChunk)
}.

Record Candidate := mkCandidate {
  groundingMetadata : option GroundingMetadata
}.

Record GenerateContentResponse := mkGenerateContentResponse {
  candidates : option (list Candidate);
  text : option string
}.

(** [if (u) uris.push(u)] *)
Definition push_uri (uris : list string) (u : option string) : list string :=
  match u with
  | Some s => if truthy u then uris ++ [s] else uris
  | None => uris
  end.

(** [for (const snippet of source.reviewSnippets) ...] *)
Definition snippets_loop (uris : list string) (snippets : list ReviewSnippet)
  : list string :=
  fold_left (fun acc snippet => push_uri acc (snippet_uri snippet)) snippets uris.

(** [for (const source of chunk.maps.placeAnswerSources) ...] *)
Definition sources_loop (uris : list string) (sources : list PlaceAnswerSource)
  : list string :=
  fold_left
    (fun acc source =>
       match reviewSnippets source with
       | Some snippets => snippets_loop acc snippets
       | None => acc
       end)
    sources uris.

(** The body of the loop over the grounding chunks. *)
Definition chunk_body (uris : list string) (chunk : GroundingChunk) : list string :=
  let uris1 :=
    match web chunk with
    | Some w => push_uri uris (web_uri w)
    | None => uris
    end in
  let uris2 :=
    match maps chunk with
    | Some m => push_uri uris1 (maps_uri m)
    | None => uris1
    end in
  match maps chunk with
  | Some m =>
      match placeAnswerSources m with
      | Some sources => sources_loop uris2 sources
      | None => uris2
      end
  | None => uris2
  end.

Definition extractGroundingUris (response : GenerateContentResponse) : list string :=
  match candidates response with
  | Some (c0 :: _) =>
      match groundingMetadata c0 with
      | Some gm =>
          match groundingChunks gm with
          | Some chunks => fold_left chunk_body chunks []
          | None => []
          end
      | None => []
      end
  | _ => []
  end.

(** *** The chat session *)

Inductive Tool := googleSearch | googleMaps.

(** The object returned by [ai.chats.create]. *)
Record Chat := mkChat {
  chat_apiKey : string;
  chat_model : string;
  chat_tools : list Tool
}.

Record RetrievalConfig := mkRetrievalConfig {
  latLng : Types.LatLng
}.

Record ToolConfig := mkToolConfig {
  retrievalConfig : RetrievalConfig
}.

(** [sendMessageConfig]: an object with at most the key [toolConfig]. *)
Record SendMessageConfig := mkSendMessageConfig {
  toolConfig : option ToolConfig
}.

(** The argument of one [sendMessageStream] call. *)
Record SendRequest := mkSendRequest {
  message : string;
  config : SendMessageConfig
}.

(** What the provider does with a request: the chunks the stream yields,
    and whether it then throws instead of ending.  A call that rejects
    before the first chunk is [stream_chunks = []], [stream_fails = true]. *)
Record StreamOutcome := mkStreamOutcome {
  stream_chunks : list GenerateContentResponse;
  stream_fails : bool
}.

Record Props := mkProps {
  stores : list Types.StoreData;
  selectedStore : option Types.StoreData;
  userLocation : option Types.LatLng
}.

Record State := mkState {
  messages : list Types.ChatMessage;
  inputMessage : string;
  loading : bool;
  chatRef : option Chat
}.

Definition initial : State :=
  {| messages := []; inputMessage := ""; loading := false; chatRef := None |}.

Definition key_missing_message : string :=
  "Error: API Key missing. AI assistant cannot function.".

Definition init_failed_message : string :=
  "Error: Could not initialize AI assistant. Check console for details.".

Definition apology_message : string :=
  "I apologize, but I encountered an error while processing your request. Please try again.".

Definition model_message (body : string) (now : Date) : Types.ChatMessage :=
  {| Types.role := Types.model; Types.parts := Types.PString body;
     Types.timestamp := now; Types.groundingUris := None |}.

Definition user_message (body : string) (now : Date) : Types.ChatMessage :=
  {| Types.role := Types.user; Types.parts := Types.PString body;
     Types.timestamp := now; Types.groundingUris := None |}.

Definition setMessages (f : list Types.ChatMessage -> list Types.ChatMessage)
    (st : State) : State :=
  {| messages := f (messages st); inputMessage := inputMessage st;
     loading := loading st; chatRef := chatRef st |}.

Definition setLoading (b : bool) (st : State) : State :=
  {| messages := messages st; inputMessage := inputMessage st;
     loading := b; chatRef := chatRef st |}.

Definition setInputMessage (s : string) (st : State) : State :=
  {| messages := messages st; inputMessage := s;
     loading := loading st; chatRef := chatRef st |}.

Definition set_chatRef (c : option Chat) (st : State) : State :=
  {| messages := messages st; inputMessage := inputMessage st;
     loading := loading st; chatRef := c |}.

(** [[...new Set(l)]]: a [Set] keeps insertion order and ignores a value it
    already holds. *)
Definition Set_add (acc : list string) (x : string) : list string :=
  if decide (x ∈ acc) then acc else acc ++ [x].

Definition Set_spread (l : list string) : list string := fold_left Set_add l [].

(** The updater passed to [setMessages] after each chunk. *)
Definition update_placeholder (fullResponseText : string)
    (allGroundingUris : list string) (prevMessages : list Types.ChatMessage)
  : list Types.ChatMessage :=
  match last prevMessages with
  | Some m =>
      if decide (Types.role m = Types.model) then
        <[length prevMessages - 1 :=
            {| Types.role := Types.role m;
               Types.parts := Types.PString fullResponseText;
               Types.timestamp := Types.timestamp m;
               Types.groundingUris := Some allGroundingUris |}]> prevMessages
      else prevMessages
  | None => prevMessages
  end.

(** The updater passed to [setMessages] in the [catch] block.  On an empty
    array the assignment at index [-1] adds no element. *)
Definition replace_with_apology (now : Date) (prevMessages : list Types.ChatMessage)
  : list Types.ChatMessage :=
  match prevMessages with
  | [] => []
  | _ => <[length prevMessages - 1 := model_message apology_message now]> prevMessages
  end.

(** The local variables of the streaming loop, with the component state. *)
Record Loop := mkLoop {
  fullResponseText : string;
  allGroundingUris : list string;
  loop_state : State
}.

(** One iteration of [for await (const chunk of responseStream)]. *)
Definition on_chunk (l : Loop) (chunk : GenerateContentResponse) : Loop :=
  let full :=
    match text chunk with
    | Some t => if truthy (text chunk) then fullResponseText l +:+ t
                else fullResponseText l
    | None => fullResponseText l
    end in
  let chunkUris := extractGroundingUris chunk in
  let all :=
    if decide (0 < length chunkUris)
    then Set_spread (allGroundingUris l ++ chunkUris)
    else allGroundingUris l in
  {| fullResponseText := full;
     allGroundingUris := all;
     loop_state := setMessages (update_placeholder full all) (loop_state l) |}.

Definition run_stream (chunks : list GenerateContentResponse) (st : State) : Loop :=
  fold_left on_chunk chunks
    {| fullResponseText := ""; allGroundingUris := []; loop_state := st |}.

Definition choose_retrievalConfig (p : Props) : option RetrievalConfig :=
  match selectedStore p with
  | Some s =>
      Some {| latLng := {| Types.lat_latitude := Types.latitude s;
                           Types.lat_longitude := Types.longitude s |} |}
  | None =>
      match userLocation p with
      | Some u => Some {| latLng := u |}
      | None => None
      end
  end.

Definition build_sendMessageConfig (rc : option RetrievalConfig) : SendMessageConfig :=
  {| toolConfig :=
       match rc with
       | Some r => Some {| retrievalConfig := r |}
       | None => None
       end |}.

(** What the message list shows as sources under a message:
    [msg.groundingUris && msg.groundingUris.length > 0 && ...map(...)]. *)
Definition rendered_sources (msg : Types.ChatMessage) : list string :=
  match Types.groundingUris msg with
  | Some uris => uris
  | None => []
  end.

Section Component.

(** The model identifier, from constants.ts. *)
Variable GEMINI_MODEL_FLASH : string.

(** [String.prototype.trim]. *)
Variable trim : string -> string.

(** The mount effect.  [API_KEY] is [process.env.API_KEY]; [sdk_throws]
    tells whether the SDK constructor or [chats.create] throws. *)
Definition init_effect (API_KEY : option string) (sdk_throws : bool)
    (now : Date) (st : State) : State :=
  match API_KEY with
  | Some key =>
      if truthy API_KEY then
        if sdk_throws then
          setMessages (fun prev => prev ++ [model_message init_failed_message now]) st
        else
          set_chatRef
            (Some {| chat_apiKey := key; chat_model := GEMINI_MODEL_FLASH;
                     chat_tools := [googleSearch; googleMaps] |}) st
      else
        setMessages (fun prev => prev ++ [model_message key_missing_message now]) st
  | None =>
      setMessages (fun prev => prev ++ [model_message key_missing_message now]) st
  end.

(** [!inputMessage.trim() || loading || !chatRef.current] *)
Definition send_blocked (st : State) : bool :=
  negb (truthy (Some (trim (inputMessage st))))
  || loading st
  || negb (bool_decide (is_Some (chatRef st))).

(** [disabled] of the text input and of the button. *)
Definition input_disabled (st : State) : bool :=
  loading st || negb (bool_decide (is_Some (chatRef st))).

Definition button_disabled (st : State) : bool := send_blocked st.

(** [handleSendMessage], run until its promise settles.  The result holds
    the component state and the [sendMessageStream] calls made, in order.
    The three dates are the values of the [new Date()] calls for the user
    message, the placeholder and the apology. *)
Definition handleSendMessage (p : Props) (provider : SendRequest -> StreamOutcome)
    (t_user t_placeholder t_error : Date) (st : State)
  : State * list SendRequest :=
  if send_blocked st then (st, [])
  else
    let userQuery := inputMessage st in
    let st1 := setInputMessage "" st in
    let st2 :=
      setMessages
        (fun prevMessages =>
           prevMessages ++ [user_message userQuery t_user;
                            model_message "..." t_placeholder]) st1 in
    let st3 := setLoading true st2 in
    let request :=
      {| message := userQuery;
         config := build_sendMessageConfig (choose_retrievalConfig p) |} in
    let outcome := provider request in
    let l := run_stream (stream_chunks outcome) st3 in
    let st4 :=
      if stream_fails outcome
      then setMessages (replace_with_apology t_error) (loop_state l)
      else loop_state l in
    (setLoading false st4, [request]).

(** [handleKeyPress], for a key event with the given [key]. *)
Definition handleKeyPress (key : string) (p : Props)
    (provider : SendRequest -> StreamOutcome)
    (t_user t_placeholder t_error : Date) (st : State)
  : State * list SendRequest :=
  if decide (key = "Enter")
  then handleSendMessage p provider t_user t_placeholder t_error st
  else (st, []).

End Component.

End Chatbot.

(** ** components/MapVisualization.tsx *)
Module MapVisualization.

(** *** The mapping SDK, as declared in types/google-maps.d.ts *)

Record LatLngLiteral := mkLatLngLiteral {
  lat : number;
  lng : number
}.

Inductive SymbolPath :=
  | CIRCLE
  | FORWARD_CLOSED_ARROW
  | FORWARD_OPEN_ARROW
  | BACKWARD_CLOSED_ARROW
  | BACKWARD_OPEN_ARROW.

Record MarkerIcon := mkMarkerIcon {
  path : SymbolPath;
  fillColor : string;
  fillOpacity : number;
  strokeWeight : number;
  scale : number
}.

(** A marker holds what its constructor and [setIcon] were given;
    [getTitle] and [getPosition] read it back.  [click_store] is the store
    captured by the click listener. *)
Record Marker := mkMarker {
  position : LatLngLiteral;
  attached : bool;
  title : string;
  icon : MarkerIcon;
  click_store : Types.StoreData
}.

Definition getTitle (m : Marker) : string := title m.
Definition getPosition (m : Marker) : LatLngLiteral := position m.

(** The calls made on the map surface after its construction. *)
Inductive MapCall :=
  | fitBounds (points : list LatLngLiteral)
  | panTo (point : LatLngLiteral).

Record GMap := mkGMap {
  center : LatLngLiteral;
  zoom : number;
  calls : list MapCall
}.

(** The info overlay: [setContent] is always given the metrics template
    filled from one store, which stands for the HTML text; [anchor] is the
    index in [markersRef] of the marker it was last opened on. *)
Record InfoWindow := mkInfoWindow {
  content : option Types.StoreData;
  anchor : option nat
}.

(** The numeric literals of the icons, as binary64 values. *)
Definition num_0 : number := S754_zero false.
Definition num_0_8 : number := S754_finite false 7205759403792794 (-53).
Definition num_0_9 : number := S754_finite false 8106479329266893 (-53).
Definition num_8 : number := S754_finite false 4503599627370496 (-49).
Definition num_10 : number := S754_finite false 5629499534213120 (-49).

Definition created_icon (selected : bool) : MarkerIcon :=
  {| path := CIRCLE;
     fillColor := if selected then "#FF0000" else "#0000FF";
     fillOpacity := num_0_8; strokeWeight := num_0; scale := num_8 |}.

Definition selected_icon : MarkerIcon :=
  {| path := CIRCLE; fillColor := "#FF0000";
     fillOpacity := num_0_9; strokeWeight := num_0; scale := num_10 |}.

Definition unselected_icon : MarkerIcon :=
  {| path := CIRCLE; fillColor := "#0000FF";
     fillOpacity := num_0_8; strokeWeight := num_0; scale := num_8 |}.

(** *** Functions stored in [window.gm_authFailure] *)

(** Function identity: a handler installed by other code, or the closure
    created by the load with the given number. *)
Inductive Hook :=
  | Foreign (n : nat)
  | Override (load : nat).

Global Instance Hook_eq_dec : EqDecision Hook.
Proof. solve_decision. Defined.

Inductive PromiseState :=
  | Pending
  | Fulfilled
  | Failed (reason : string).

(** One execution of the [new Promise] executor: the instance whose
    callback started it, its [isAuthFailureTriggered] flag, the state of
    its promise and the instances that chained [.then(initMap)] on it. *)
Record Load := mkLoad {
  load_instance : nat;
  isAuthFailureTriggered : bool;
  promise : PromiseState;
  waiters : list nat
}.

(** A [<script id="google-maps-script">] element. *)
Record Script := mkScript {
  src_key : string;
  script_load : nat
}.

(** The page: [window], the document head and the two module-level
    variables, with the loads started so far. *)
Record Page := mkPage {
  google_maps : bool;
  gm_authFailure : option Hook;
  head_scripts : list Script;
  created_scripts : nat;
  globalGoogleMapsLoadingPromise : option nat;
  originalGmAuthFailure : option Hook;
  loads : list Load
}.

(** The refs and state of the component instance on screen. *)
Record Component := mkComponent {
  inst : nat;
  mapRef_current : bool;
  googleMap : option GMap;
  markersRef : list Marker;
  infoWindowRef : option InfoWindow;
  mapLoadError : option string
}.

Record State := mkState {
  page : Page;
  comp : Component
}.

Inductive LoadResult :=
  | AlreadyLoaded
  | InFlight (load : nat)
  | RejectedNow (reason : string)
  | Started (load : nat).

Definition key_error_message : string :=
  "Google Maps API Key is missing or incorrectly configured. Please ensure `process.env.API_KEY` is set in your environment variables and correctly bundled for client-side use. Map cannot be loaded.".

Definition auth_error_message : string :=
  "Google Maps API Authentication Failed: Invalid API Key or configuration. Please check your API key, ensure Maps JavaScript API is enabled for your project, and billing is active (ai.google.dev/gemini-api/docs/billing).".

Definition not_found_message : string :=
  "Google Maps script loaded, but 'google.maps' object not found or not fully initialized.".

Definition script_error_message (detail : string) : string :=
  "Failed to load Google Maps script: " +:+ detail
  +:+ ". This could be due to network issues or an incorrect script URL.".

Definition placeholder_key : string := "process.env.API_KEY".

(** [!googleMapsApiKey || googleMapsApiKey === "process.env.API_KEY"] *)
Definition key_invalid (API_KEY : option string) : bool :=
  negb (truthy API_KEY) || bool_decide (API_KEY = Some placeholder_key).

(** Field updates. *)
Definition set_google_maps (b : bool) (pg : Page) : Page :=
  {| google_maps := b; gm_authFailure := gm_authFailure pg;
     head_scripts := head_scripts pg; created_scripts := created_scripts pg;
     globalGoogleMapsLoadingPromise := globalGoogleMapsLoadingPromise pg;
     originalGmAuthFailure := originalGmAuthFailure pg; loads := loads pg |}.

Definition set_gm_authFailure (h : option Hook) (pg : Page) : Page :=
  {| google_maps := google_maps pg; gm_authFailure := h;
     head_scripts := head_scripts pg; created_scripts := created_scripts pg;
     globalGoogleMapsLoadingPromise := globalGoogleMapsLoadingPromise pg;
     originalGmAuthFailure := originalGmAuthFailure pg; loads := loads pg |}.

Definition set_head_scripts (l : list Script) (pg : Page) : Page :=
  {| google_maps := google_maps pg; gm_authFailure := gm_authFailure pg;
     head_scripts := l; created_scripts := created_scripts pg;
     globalGoogleMapsLoadingPromise := globalGoogleMapsLoadingPromise pg;
     originalGmAuthFailure := originalGmAuthFailure pg; loads := loads pg |}.

Definition set_created_scripts (n : nat) (pg : Page) : Page :=
  {| google_maps := google_maps pg; gm_authFailure := gm_authFailure pg;
     head_scripts := head_scripts pg; created_scripts := n;
     globalGoogleMapsLoadingPromise := globalGoogleMapsLoadingPromise pg;
     originalGmAuthFailure := originalGmAuthFailure pg; loads := loads pg |}.

Definition set_globalPromise (p : option nat) (pg : Page) : Page :=
  {| google_maps := google_maps pg; gm_authFailure := gm_authFailure pg;
     head_scripts := head_scripts pg; created_scripts := created_scripts pg;
     globalGoogleMapsLoadingPromise := p;
     originalGmAuthFailure := originalGmAuthFailure pg; loads := loads pg |}.

Definition set_original (h : option Hook) (pg : Page) : Page :=
  {| google_maps := google_maps pg; gm_authFailure := gm_authFailure pg;
     head_scripts := head_scripts pg; created_scripts := created_scripts pg;
     globalGoogleMapsLoadingPromise := globalGoogleMapsLoadingPromise pg;
     originalGmAuthFailure := h; loads := loads pg |}.

Definition set_loads (l : list Load) (pg : Page) : Page :=
  {| google_maps := google_maps pg; gm_authFailure := gm_authFailure pg;
     head_scripts := head_scripts pg; created_scripts := created_scripts pg;
     globalGoogleMapsLoadingPromise := globalGoogleMapsLoadingPromise pg;
     originalGmAuthFailure := originalGmAuthFailure pg; loads := l |}.

Definition set_page (pg : Page) (st : State) : State :=
  {| page := pg; comp := comp st |}.

Definition set_comp (c : Component) (st : State) : State :=
  {| page := page st; comp := c |}.

Definition with_mapLoadError (e : option string) (c : Component) : Component :=
  {| inst := inst c; mapRef_current := mapRef_current c;
     googleMap := googleMap c; markersRef := markersRef c;
     infoWindowRef := infoWindowRef c; mapLoadError := e |}.

Definition with_googleMap (m : option GMap) (c : Component) : Component :=
  {| inst := inst c; mapRef_current := mapRef_current c;
     googleMap := m; markersRef := markersRef c;
     infoWindowRef := infoWindowRef c; mapLoadError := mapLoadError c |}.

Definition with_markersRef (l : list Marker) (c : Component) : Component :=
  {| inst := inst c; mapRef_current := mapRef_current c;
     googleMap := googleMap c; markersRef := l;
     infoWindowRef := infoWindowRef c; mapLoadError := mapLoadError c |}.

Definition with_infoWindowRef (w : option InfoWindow) (c : Component) : Component :=
  {| inst := inst c; mapRef_current := mapRef_current c;
     googleMap := googleMap c; markersRef := markersRef c;
     infoWindowRef := w; mapLoadError := mapLoadError c |}.

(** [setMapLoadError], called from the instance on screen. *)
Definition setMapLoadError (e : option string) (st : State) : State :=
  set_comp (with_mapLoadError e (comp st)) st.

(** [setMapLoadError], called from a closure of instance [i]: a state
    update of an instance that is no longer mounted is dropped. *)
Definition setMapLoadError_of (i : nat) (e : option string) (st : State) : State :=
  if mapRef_current (comp st) && bool_decide (inst (comp st) = i)
  then setMapLoadError e st
  else st.

(** The page before the component is first mounted, given what other code
    left in [window]. *)
Definition initial (maps_loaded : bool) (hook : option Hook) : State :=
  {| page := {| google_maps := maps_loaded; gm_authFailure := hook;
                head_scripts := []; created_scripts := 0;
                globalGoogleMapsLoadingPromise := None;
                originalGmAuthFailure := None; loads := [] |};
     comp := {| inst := 0; mapRef_current := false; googleMap := None;
                markersRef := []; infoWindowRef := None;
                mapLoadError := None |} |}.

(** The argument of [script.onerror]. *)
Inductive ErrorArg :=
  | ErrString (s : string)
  | ErrErrorEvent (msg : string)
  | ErrOther.

Definition detailedErrorMessage (e : ErrorArg) : string :=
  match e with
  | ErrString s => s
  | ErrErrorEvent msg => msg
  | ErrOther => "Unknown network or script error"
  end.

Record Props := mkProps {
  stores : list Types.StoreData;
  selectedStore : option Types.StoreData
}.

Section Component.

(** From constants.ts. *)
Variable DEFAULT_MAP_CENTER : LatLngLiteral.
Variable DEFAULT_MAP_ZOOM : number.

(** *** Loading the SDK *)

Definition loadGoogleMapsScript (API_KEY : option string) (st : State)
  : LoadResult * State :=
  let pg := page st in
  let c := comp st in
  if google_maps pg && mapRef_current c && bool_decide (is_Some (googleMap c))
  then (AlreadyLoaded, st)
  else
    match globalGoogleMapsLoadingPromise pg with
    | Some l => (InFlight l, st)
    | None =>
        if key_invalid API_KEY then
          (RejectedNow key_error_message,
           setMapLoadError (Some key_error_message) st)
        else
          (* existingScript.remove() *)
          let pg1 :=
            match head_scripts pg with
            | [] => pg
            | _ :: rest => set_head_scripts rest pg
            end in
          let n := length (loads pg1) in
          (* the executor of the new promise *)
          let pg2 := set_original (gm_authFailure pg1) pg1 in
          let pg3 := set_gm_authFailure (Some (Override n)) pg2 in
          let pg4 := set_created_scripts (S (created_scripts pg3)) pg3 in
          let pg5 :=
            set_head_scripts
              (head_scripts pg4
                 ++ [{| src_key := default "" API_KEY; script_load := n |}])
              pg4 in
          let pg6 :=
            set_loads
              (loads pg5
                 ++ [{| load_instance := inst c;
                        isAuthFailureTriggered := false;
                        promise := Pending; waiters := [] |}])
              pg5 in
          let pg7 := set_globalPromise (Some n) pg6 in
          (Started n, set_page pg7 st)
    end.

Definition initMap (st : State) : State :=
  let c := comp st in
  if mapRef_current c && google_maps (page st)
     && negb (bool_decide (is_Some (googleMap c)))
  then
    set_comp
      (with_mapLoadError None
         (with_infoWindowRef (Some {| content := None; anchor := None |})
            (with_googleMap
               (Some {| center := DEFAULT_MAP_CENTER;
                        zoom := DEFAULT_MAP_ZOOM; calls := [] |}) c)))
      st
  else st.

(** [initMap] of instance [i]: the [mapRef] of an instance that left the
    screen is [null]. *)
Definition initMap_of (i : nat) (st : State) : State :=
  if mapRef_current (comp st) && bool_decide (inst (comp st) = i)
  then initMap st
  else st.

Definition update_load (l : nat) (f : Load -> Load) (st : State) : State :=
  set_page (set_loads (alter f l (loads (page st))) (page st)) st.

Definition add_waiter (l : nat) (i : nat) (st : State) : State :=
  update_load l
    (fun L => {| load_instance := load_instance L;
                 isAuthFailureTriggered := isAuthFailureTriggered L;
                 promise := promise L; waiters := waiters L ++ [i] |}) st.

(** [resolve()] or [reject(...)] of load [l], with the reactions that run
    once the calling handler has returned: the [finally] callback, then
    [initMap] for each instance that chained it.  A settled promise stays
    as it is. *)
Definition settle (l : nat) (outcome : PromiseState) (st : State) : State :=
  match loads (page st) !! l with
  | Some L =>
      match promise L with
      | Pending =>
          let st1 :=
            update_load l
              (fun L => {| load_instance := load_instance L;
                           isAuthFailureTriggered := isAuthFailureTriggered L;
                           promise := outcome; waiters := waiters L |}) st in
          let st2 := set_page (set_globalPromise None (page st1)) st1 in
          match outcome with
          | Fulfilled => fold_left (fun s w => initMap_of w s) (waiters L) st2
          | _ => st2
          end
      | _ => st
      end
  | None => st
  end.

(** The closure stored in [window.gm_authFailure] by load [l]. *)
Definition auth_failure_handler (l : nat) (st : State) : State :=
  match loads (page st) !! l with
  | Some L =>
      if isAuthFailureTriggered L then st
      else
        let st1 :=
          update_load l
            (fun L => {| load_instance := load_instance L;
                         isAuthFailureTriggered := true;
                         promise := promise L; waiters := waiters L |}) st in
        let st2 :=
          setMapLoadError_of (load_instance L) (Some auth_error_message) st1 in
        let pg := page st2 in
        let pg1 :=
          match originalGmAuthFailure pg with
          | Some h => set_gm_authFailure (Some h) pg
          | None => set_gm_authFailure None pg
          end in
        let pg2 := set_original None pg1 in
        settle l (Failed auth_error_message) (set_page pg2 st2)
  | None => st
  end.

(** [script.onload] of load [l]. *)
Definition script_onload (l : nat) (st : State) : State :=
  match loads (page st) !! l with
  | Some L =>
      if isAuthFailureTriggered L then st
      else
        let available := google_maps (page st) in
        let st1 :=
          if available then st
          else setMapLoadError_of (load_instance L) (Some not_found_message) st in
        let pg := page st1 in
        let pg1 :=
          match originalGmAuthFailure pg with
          | Some h => if available then set_gm_authFailure (Some h) pg else pg
          | None => if available then set_gm_authFailure None pg else pg
          end in
        let pg2 := set_original None pg1 in
        settle l (if available then Fulfilled else Failed not_found_message)
          (set_page pg2 st1)
  | None => st
  end.

(** [script.onerror] of load [l]. *)
Definition script_onerror (l : nat) (e : ErrorArg) (st : State) : State :=
  match loads (page st) !! l with
  | Some L =>
      if isAuthFailureTriggered L then st
      else
        let errorMsg := script_error_message (detailedErrorMessage e) in
        let st1 := setMapLoadError_of (load_instance L) (Some errorMsg) st in
        let pg := page st1 in
        let pg1 :=
          match originalGmAuthFailure pg with
          | Some h => set_gm_authFailure (Some h) pg
          | None => set_gm_authFailure None pg
          end in
        let pg2 := set_original None pg1 in
        settle l (Failed errorMsg) (set_page pg2 st1)
  | None => st
  end.

(** The body of the first effect, run by the instance on screen. *)
Definition mount_effect (API_KEY : option string) (st : State) : State :=
  let st0 := setMapLoadError None st in
  match loadGoogleMapsScript API_KEY st0 with
  | (AlreadyLoaded, st1) => initMap st1
  | (InFlight l, st1) => add_waiter l (inst (comp st1)) st1
  | (RejectedNow _, st1) => st1
  | (Started l, st1) => add_waiter l (inst (comp st1)) st1
  end.

(** The cleanup returned by the first effect. *)
Definition cleanup (st : State) : State :=
  let c := comp st in
  let c1 :=
    with_infoWindowRef None (with_markersRef [] (with_googleMap None c)) in
  let pg := page st in
  let pg1 :=
    match globalGoogleMapsLoadingPromise pg with
    | Some _ => set_globalPromise None pg
    | None => pg
    end in
  let pg2 :=
    if decide (gm_authFailure pg1 ≠ originalGmAuthFailure pg1) then
      let pg' :=
        match originalGmAuthFailure pg1 with
        | Some h => set_gm_authFailure (Some h) pg1
        | None => set_gm_authFailure None pg1
        end in
      set_original None pg'
    else pg1 in
  {| page := pg2; comp := c1 |}.

(** React puts a new instance on screen and runs its effect. *)
Definition mount (API_KEY : option string) (st : State) : State :=
  if mapRef_current (comp st) then st
  else
    mount_effect API_KEY
      (set_comp {| inst := S (inst (comp st)); mapRef_current := true;
                   googleMap := None; markersRef := [];
                   infoWindowRef := None; mapLoadError := None |} st).

(** React takes the instance off screen: the cleanup runs and the ref to
    the container is cleared. *)
Definition unmount (st : State) : State :=
  if mapRef_current (comp st) then
    let st1 := cleanup st in
    set_comp {| inst := inst (comp st1); mapRef_current := false;
                googleMap := googleMap (comp st1);
                markersRef := markersRef (comp st1);
                infoWindowRef := infoWindowRef (comp st1);
                mapLoadError := mapLoadError (comp st1) |} st1
  else st.

(** What happens to the page, one task at a time. *)
Inductive Event :=
  | Mount
  | Unmount
  | ScriptLoaded (load : nat) (defines_maps : bool)
  | ScriptFailed (load : nat) (e : ErrorArg)
  | AuthFailed.

Definition step (API_KEY : option string) (st : State) (ev : Event) : State :=
  match ev with
  | Mount => mount API_KEY st
  | Unmount => unmount st
  | ScriptLoaded l defines_maps =>
      (* the vendor script runs, then its load event is delivered *)
      match loads (page st) !! l with
      | Some _ =>
          let st1 :=
            if defines_maps then set_page (set_google_maps true (page st)) st
            else st in
          script_onload l st1
      | None => st
      end
  | ScriptFailed l e => script_onerror l e st
  | AuthFailed =>
      (* the vendor calls window.gm_authFailure() *)
      match gm_authFailure (page st) with
      | Some (Override l) => auth_failure_handler l st
      | _ => st
      end
  end.

Definition run (API_KEY : option string) (evs : list Event) (st : State) : State :=
  fold_left (step API_KEY) evs st.

(** *** Markers *)

Definition create_marker (selected : option Types.StoreData)
    (store : Types.StoreData) : Marker :=
  {| position := {| lat := Types.latitude store; lng := Types.longitude store |};
     attached := true;
     title := Types.city store;
     icon :=
       created_icon
         match selected with
         | Some s => bool_decide (Types.id s = Types.id store)
         | None => false
         end;
     click_store := store |}.

Definition setIcon (i : MarkerIcon) (m : Marker) : Marker :=
  {| position := position m; attached := attached m; title := title m;
     icon := i; click_store := click_store m |}.

(** The test of the last loop of the marker effect. *)
Definition matches_selected (selected : option Types.StoreData) (m : Marker) : bool :=
  match selected with
  | Some s =>
      bool_decide (getTitle m = Types.city s)
      && strict_eq (lat (getPosition m)) (Types.latitude s)
      && strict_eq (lng (getPosition m)) (Types.longitude s)
  | None => false
  end.

(** [markersRef.current.forEach(marker => ...)], from index [i] on. *)
Fixpoint sync_pass (selected : option Types.StoreData) (i : nat)
    (markers : list Marker) (iw : option InfoWindow)
  : list Marker * option InfoWindow :=
  match markers with
  | [] => ([], iw)
  | m :: rest =>
      if matches_selected selected m then
        let iw1 :=
          match iw with
          | Some _ => Some {| content := selected; anchor := Some i |}
          | None => None
          end in
        let '(rest', iw2) := sync_pass selected (S i) rest iw1 in
        (setIcon selected_icon m :: rest', iw2)
      else
        let '(rest', iw2) := sync_pass selected (S i) rest iw in
        (setIcon unselected_icon m :: rest', iw2)
  end.

Definition map_call (call : MapCall) (m : GMap) : GMap :=
  {| center := center m; zoom := zoom m; calls := calls m ++ [call] |}.

(** The second effect, on a change of the stores or of the selection. *)
Definition marker_effect (p : Props) (st : State) : State :=
  let c := comp st in
  match googleMap c with
  | Some gm =>
      if google_maps (page st) then
        let markers := map (create_marker (selectedStore p)) (stores p) in
        let gm1 :=
          if bool_decide (0 < length (stores p))
             && negb (bool_decide (is_Some (selectedStore p)))
          then
            map_call
              (fitBounds
                 (map (fun s => {| lat := Types.latitude s;
                                   lng := Types.longitude s |}) (stores p)))
              gm
          else gm in
        let '(markers', iw) :=
          sync_pass (selectedStore p) 0 markers (infoWindowRef c) in
        set_comp
          (with_infoWindowRef iw
             (with_markersRef markers' (with_googleMap (Some gm1) c))) st
      else st
  | None => st
  end.

(** The third effect, on a change of the selection. *)
Definition pan_effect (p : Props) (st : State) : State :=
  let c := comp st in
  match googleMap c, selectedStore p with
  | Some gm, Some s =>
      set_comp
        (with_googleMap
           (Some (map_call (panTo {| lat := Types.latitude s;
                                     lng := Types.longitude s |}) gm)) c) st
  | _, _ => st
  end.

(** A click on the marker at index [i]: the store handed to
    [onStoreSelect], and the overlay opened on the marker. *)
Definition marker_click (i : nat) (st : State) : option Types.StoreData * State :=
  let c := comp st in
  match markersRef c !! i with
  | Some m =>
      (Some (click_store m),
       match infoWindowRef c with
       | Some _ =>
           set_comp
             (with_infoWindowRef
                (Some {| content := Some (click_store m); anchor := Some i |}) c)
             st
       | None => st
       end)
  | None => (None, st)
  end.

End Component.

End MapVisualization.

(** * Definitions used to state the properties *)

(** The identifier the import gives to the row at position [i]:
    ["store-0"], ["store-1"], ... *)
Definition store_id (i : nat) : string := "store-" +:+ pretty i.

(** A URI field that is present: defined and not the empty string. *)
Definition present (u : option string) : list string :=
  match u with
  | Some s => if truthy u then [s] else []
  | None => []
  end.

(** The review-snippet URIs of one place-answer source. *)
Definition source_uris (source : Chatbot.PlaceAnswerSource) : list string :=
  match Chatbot.reviewSnippets source with
  | Some snippets => flat_map (fun sn => present (Chatbot.snippet_uri sn)) snippets
  | None => []
  end.

(** The URIs of one grounding chunk: the web URI, then the maps URI, then
    the review-snippet URIs of every place-answer source. *)
Definition chunk_uris (chunk : Chatbot.GroundingChunk) : list string :=
  match Chatbot.web chunk with
  | Some w => present (Chatbot.web_uri w)
  | None => []
  end
  ++ match Chatbot.maps chunk with
     | Some m => present (Chatbot.maps_uri m)
     | None => []
     end
  ++ match Chatbot.maps chunk with
     | Some m =>
         match Chatbot.placeAnswerSources m with
         | Some sources => flat_map source_uris sources
         | None => []
         end
     | None => []
     end.

(** The grounding chunks of the first candidate of a response. *)
Definition first_candidate_chunks (response : Chatbot.GenerateContentResponse)
  : list Chatbot.GroundingChunk :=
  match Chatbot.candidates response with
  | Some (c0 :: _) =>
      match Chatbot.groundingMetadata c0 with
      | Some gm => default [] (Chatbot.groundingChunks gm)
      | None => []
      end
  | _ => []
  end.

(** A list with its duplicates removed, the first occurrence of each value
    kept in place. *)
Fixpoint dedup_first (l : list string) : list string :=
  match l with
  | [] => []
  | x :: rest => x :: filter (fun y => y ≠ x) (dedup_first rest)
  end.

(** The coordinate a request is biased toward, if any. *)
Definition location_bias (r : Chatbot.SendRequest) : option Types.LatLng :=
  match Chatbot.toolConfig (Chatbot.config r) with
  | Some tc => Some (Chatbot.latLng (Chatbot.retrievalConfig tc))
  | None => None
  end.

Definition coordinate (s : Types.StoreData) : Types.LatLng :=
  {| Types.lat_latitude := Types.latitude s;
     Types.lat_longitude := Types.longitude s |}.

(** The request [handleSendMessage] builds from a state and the props. *)
Definition request_of (p : Chatbot.Props) (st : Chatbot.State) : Chatbot.SendRequest :=
  {| Chatbot.message := Chatbot.inputMessage st;
     Chatbot.config :=
       Chatbot.build_sendMessageConfig (Chatbot.choose_retrievalConfig p) |}.

(** The props the shell passes to the chat assistant. *)
Definition chat_props (app : App.State) : Chatbot.Props :=
  {| Chatbot.stores := App.stores app;
     Chatbot.selectedStore := App.selectedStore app;
     Chatbot.userLocation := App.userLocation app |}.

(** The component state once [handleSendMessage] has appended the user
    message and the placeholder and has set [loading]. *)
Definition submitted (t_user t_placeholder : Date) (st : Chatbot.State)
  : Chatbot.State :=
  {| Chatbot.messages :=
       Chatbot.messages st
       ++ [Chatbot.user_message (Chatbot.inputMessage st) t_user;
           Chatbot.model_message "..." t_placeholder];
     Chatbot.inputMessage := "";
     Chatbot.loading := true;
     Chatbot.chatRef := Chatbot.chatRef st |}.

(** No load was ever started: nothing pending, no script element made or
    in the document, and no map built. *)
Definition never_loaded (st : MapVisualization.State) : Prop :=
  MapVisualization.loads (MapVisualization.page st) = []
  /\ MapVisualization.globalGoogleMapsLoadingPromise (MapVisualization.page st) = None
  /\ MapVisualization.googleMap (MapVisualization.comp st) = None
  /\ MapVisualization.created_scripts (MapVisualization.page st) = 0
  /\ MapVisualization.head_scripts (MapVisualization.page st) = [].

(** The text the loop takes from one chunk, and from a whole stream. *)
Definition chunk_text (chunk : Chatbot.GenerateContentResponse) : string :=
  match Chatbot.text chunk with
  | Some t => t
  | None => ""
  end.

Fixpoint stream_text (chunks : list Chatbot.GenerateContentResponse) : string :=
  match chunks with
  | [] => ""
  | chunk :: rest => chunk_text chunk +:+ stream_text rest
  end.

(** What the user does with the chat panel: type in the input (which the
    browser allows only while the input is enabled), click the button, or
    press a key in the input.  A send carries the props of the render it
    happens in, the provider's answer and the dates read. *)
Inductive ChatAction :=
  | TypeText (text : string)
  | ClickSend (p : Chatbot.Props)
      (provider : Chatbot.SendRequest -> Chatbot.StreamOutcome)
      (t_user t_placeholder t_error : Date)
  | PressKey (key : string) (p : Chatbot.Props)
      (provider : Chatbot.SendRequest -> Chatbot.StreamOutcome)
      (t_user t_placeholder t_error : Date).

Definition chat_step (trim : string -> string) (st : Chatbot.State)
    (a : ChatAction) : Chatbot.State * list Chatbot.SendRequest :=
  match a with
  | TypeText text =>
      (if Chatbot.input_disabled st then st
       else Chatbot.setInputMessage text st, [])
  | ClickSend p provider t_user t_placeholder t_error =>
      Chatbot.handleSendMessage trim p provider t_user t_placeholder t_error st
  | PressKey key p provider t_user t_placeholder t_error =>
      Chatbot.handleKeyPress trim key p provider t_user t_placeholder t_error st
  end.

(** The state after a list of actions, with all the requests sent. *)
Fixpoint chat_run (trim : string -> string) (actions : list ChatAction)
    (st : Chatbot.State) : Chatbot.State * list Chatbot.SendRequest :=
  match actions with
  | [] => (st, [])
  | a :: rest =>
      let '(st1, sent1) := chat_step trim st a in
      let '(st2, sent2) := chat_run trim rest st1 in
      (st2, sent1 ++ sent2)
  end.

(** The calls the shell's callbacks receive. *)
Inductive AppAction :=
  | DataUpload (data : list Types.StoreData)
  | StoreSelect (store : option Types.StoreData)
  | ClearSelection
  | GeolocationSuccess (coords : Types.LatLng)
  | GeolocationError.

Definition app_step (st : App.State) (a : AppAction) : App.State :=
  match a with
  | DataUpload data => App.handleDataUpload data st
  | StoreSelect store => App.handleStoreSelect store st
  | ClearSelection => App.clearSelection st
  | GeolocationSuccess coords => App.geolocationSuccess coords st
  | GeolocationError => App.geolocationError st
  end.

Definition app_run (actions : list AppAction) (st : App.State) : App.State :=
  fold_left app_step actions st.

(** Every selection in the list is of a store of the list held at that
    moment, as the selections made by the markers are. *)
Fixpoint selects_current (st : App.State) (actions : list AppAction) : Prop :=
  match actions with
  | [] => True
  | a :: rest =>
      match a with
      | StoreSelect (Some s) => s ∈ App.stores st
      | _ => True
      end
      /\ selects_current (app_step st a) rest
  end.

(** The index, counted from [i], of the last marker that passes the test
    of the marker loop. *)
Fixpoint last_match (selected : option Types.StoreData) (i : nat)
    (markers : list MapVisualization.Marker) : option nat :=
  match markers with
  | [] => None
  | m :: rest =>
      match last_match selected (S i) rest with
      | Some j => Some j
      | None =>
          if MapVisualization.matches_selected selected m then Some i else None
      end
  end.

(** The coordinate of a store, as the map takes it. *)
Definition store_point (s : Types.StoreData) : MapVisualization.LatLngLiteral :=
  {| MapVisualization.lat := Types.latitude s;
     MapVisualization.lng := Types.longitude s |}.

(** The props the shell passes to the map. *)
Definition map_props (app : App.State) : MapVisualization.Props :=
  {| MapVisualization.stores := App.stores app;
     MapVisualization.selectedStore := App.selectedStore app |}.

(** The invariants of the page while the map component comes and goes. *)
Definition page_consistent (st : MapVisualization.State) : Prop :=
  length (MapVisualization.head_scripts (MapVisualization.page st)) <= 1
  /\ MapVisualization.created_scripts (MapVisualization.page st)
     = length (MapVisualization.loads (MapVisualization.page st))
  /\ (forall l,
        MapVisualization.globalGoogleMapsLoadingPromise (MapVisualization.page st)
        = Some l ->
        S l = length (MapVisualization.loads (MapVisualization.page st))
        /\ MapVisualization.promise
             <$> MapVisualization.loads (MapVisualization.page st) !! l
           = Some MapVisualization.Pending)
  /\ (forall gm,
        MapVisualization.googleMap (MapVisualization.comp st) = Some gm ->
        MapVisualization.mapRef_current (MapVisualization.comp st) = true
        /\ MapVisualization.google_maps (MapVisualization.page st) = true
        /\ is_Some (MapVisualization.infoWindowRef (MapVisualization.comp st))).

(** The events of the first script after the mount: its load event, its
    error event, and a call of the hook by the vendor. *)
Definition first_script_event (ev : MapVisualization.Event) : Prop :=
  match ev with
  | MapVisualization.ScriptLoaded l _ => l = 0
  | MapVisualization.ScriptFailed l _ => l = 0
  | MapVisualization.AuthFailed => True
  | _ => False
  end.

(** The state of the first load once the vendor has reported an
    authentication failure, with the SDK present or not. *)
Definition auth_failed_state (key : string) (maps_loaded : bool)
    (hook : option MapVisualization.Hook) : MapVisualization.State :=
  {| MapVisualization.page :=
       {| MapVisualization.google_maps := maps_loaded;
          MapVisualization.gm_authFailure := hook;
          MapVisualization.head_scripts :=
            [ {| MapVisualization.src_key := key;
                 MapVisualization.script_load := 0 |} ];
          MapVisualization.created_scripts := 1;
          MapVisualization.globalGoogleMapsLoadingPromise := None;
          MapVisualization.originalGmAuthFailure := None;
          MapVisualization.loads :=
            [ {| MapVisualization.load_instance := 1;
                 MapVisualization.isAuthFailureTriggered := true;
                 MapVisualization.promise :=
                   MapVisualization.Failed MapVisualization.auth_error_message;
                 MapVisualization.waiters := [1] |} ] |};
     MapVisualization.comp :=
       {| MapVisualization.inst := 1;
          MapVisualization.mapRef_current := true;
          MapVisualization.googleMap := None;
          MapVisualization.markersRef := [];
          MapVisualization.infoWindowRef := None;
          MapVisualization.mapLoadError :=
            Some MapVisualization.auth_error_message |} |}.

(** ** Sample inputs *)

(** The two-row sheet of the documentation. *)
Definition sample_rows : list FileUpload.Row :=
  [ {| FileUpload.City := "Jakarta";
       FileUpload.Latitude := FileUpload.CellNumber (S754_finite true 6980579422424269 (-50));
       FileUpload.Longitude := FileUpload.CellNumber (S754_finite false 7515381878174515 (-46));
       FileUpload.Sales := FileUpload.CellString "1000";
       FileUpload.Profit := FileUpload.CellString "200";
       FileUpload.Employees := FileUpload.CellString "5" |};
    {| FileUpload.City := "Bandung";
       FileUpload.Latitude := FileUpload.CellNumber (S754_finite true 7768709357214106 (-50));
       FileUpload.Longitude := FileUpload.CellNumber (S754_finite false 7571676873516646 (-46));
       FileUpload.Sales := FileUpload.CellString "800";
       FileUpload.Profit := FileUpload.CellString "150";
       FileUpload.Employees := FileUpload.CellString "4" |} ].

(** A stand-in for [parseFloat], right on number cells. *)
Definition sample_parseFloat (c : FileUpload.Cell) : number :=
  match c with
  | FileUpload.CellNumber n => n
  | _ => NaN
  end.

Definition jakarta : Types.StoreData :=
  FileUpload.row_to_store sample_parseFloat 0
    {| FileUpload.City := "Jakarta";
       FileUpload.Latitude := FileUpload.CellNumber (S754_finite true 6980579422424269 (-50));
       FileUpload.Longitude := FileUpload.CellNumber (S754_finite false 7515381878174515 (-46));
       FileUpload.Sales := FileUpload.CellNumber (S754_finite false 8796093022208000 (-43));
       FileUpload.Profit := FileUpload.CellNumber (S754_finite false 7036874417766400 (-45));
       FileUpload.Employees := FileUpload.CellNumber (S754_finite false 5629499534213120 (-50)) |}.

(** A position reported by the browser. *)
Definition sample_position : Types.LatLng :=
  {| Types.lat_latitude := S754_finite true 6952882284715940 (-50);
     Types.lat_longitude := S754_finite false 7517295908016148 (-46) |}.

(** A chat component with a session and a typed question. *)
Definition sample_chat : Chatbot.State :=
  {| Chatbot.messages := [];
     Chatbot.inputMessage := "Which store sells most?";
     Chatbot.loading := false;
     Chatbot.chatRef :=
       Some {| Chatbot.chat_apiKey := "key"; Chatbot.chat_model := "flash";
               Chatbot.chat_tools := [Chatbot.googleSearch; Chatbot.googleMaps] |} |}.

(** A stand-in for [String.prototype.trim], right on texts without
    surrounding white space. *)
Definition sample_trim (s : string) : string := s.

Definition uri_chunk (web_uri maps_uri : string) : Chatbot.GenerateContentResponse :=
  {| Chatbot.candidates :=
       Some [ {| Chatbot.groundingMetadata :=
                   Some {| Chatbot.groundingChunks :=
                             Some [ {| Chatbot.web :=
                                         Some {| Chatbot.web_uri := Some web_uri |};
                                       Chatbot.maps :=
                                         Some {| Chatbot.maps_uri := Some maps_uri;
                                                 Chatbot.placeAnswerSources := None |} |} ] |} |} ];
     Chatbot.text := Some "text " |}.

(** A provider that streams two chunks and ends, and one that streams the
    same chunks and then fails. *)
Definition sample_provider (r : Chatbot.SendRequest) : Chatbot.StreamOutcome :=
  {| Chatbot.stream_chunks :=
       [uri_chunk "https://a.example/x" "https://maps.example/1";
        uri_chunk "https://b.example/y" "https://maps.example/1"];
     Chatbot.stream_fails := false |}.

Definition failing_provider (r : Chatbot.SendRequest) : Chatbot.StreamOutcome :=
  {| Chatbot.stream_chunks := Chatbot.stream_chunks (sample_provider r);
     Chatbot.stream_fails := true |}.

(** A map view that has loaded the SDK and built its map. *)
Definition sample_center : MapVisualization.LatLngLiteral :=
  {| MapVisualization.lat := S754_finite true 6980579422424269 (-50);
     MapVisualization.lng := S754_finite false 7515381878174515 (-46) |}.

Definition ready_map (hook : option MapVisualization.Hook) : MapVisualization.State :=
  MapVisualization.run sample_center MapVisualization.num_10 (Some "maps-key")
    [MapVisualization.Mount; MapVisualization.ScriptLoaded 0 true]
    (MapVisualization.initial false hook).

(** A second store with the city and the coordinates of [jakarta]. *)
Definition jakarta_twin : Types.StoreData :=
  {| Types.id := "store-1";
     Types.city := Types.city jakarta;
     Types.latitude := Types.latitude jakarta;
     Types.longitude := Types.longitude jakarta;
     Types.sales := Types.sales jakarta;
     Types.profit := Types.profit jakarta;
     Types.employees := Types.employees jakarta |}.

Definition twin_props : MapVisualization.Props :=
  {| MapVisualization.stores := [jakarta; jakarta_twin];
     MapVisualization.selectedStore := Some jakarta |}.

(** * Properties *)

(** ** Spreadsheet import *)

Global Instance store_id_inj : Inj (=) (=) store_id.
Proof.
  intros i j Hij. unfold store_id in Hij.
  apply (inj (String.app "store-")) in Hij. by apply (inj pretty) in Hij.
Qed.

Section FileUploadFacts.

Variable parseFloat : FileUpload.Cell -> number.
Variable sheet_to_json : list Byte.byte -> option (list FileUpload.Row).

Lemma parseExcelFile_resolved file stores :
  FileUpload.parseExcelFile parseFloat sheet_to_json file = Resolved stores ->
  exists data json,
    file = FileUpload.ReaderLoad data /\ sheet_to_json data = Some json
    /\ stores = imap (FileUpload.row_to_store parseFloat) json.
Proof.
  unfold FileUpload.parseExcelFile. destruct file as [data|]; [|discriminate].
  destruct (sheet_to_json data) as [json|] eqn:Hjson; [|discriminate].
  intros [= <-]. by exists data, json.
Qed.

Lemma imap_row_to_store_ids json :
  Types.id <$> imap (FileUpload.row_to_store parseFloat) json
  = store_id <$> seq 0 (length json).
Proof.
  rewrite fmap_imap. rewrite <- imap_seq_0. by apply imap_ext.
Qed.

(** C1.  When [parseExcelFile] resolves, the file was read and decoded into
    some rows [json], and the stores correspond to the rows one for one and
    in order: as many stores as rows, the store at position [i] built from
    the row at position [i], the identifiers ["store-0"], ["store-1"], ...
    up to ["store-(n-1)"], and no identifier used twice. *)
Theorem parseExcelFile_one_store_per_row file stores :
  FileUpload.parseExcelFile parseFloat sheet_to_json file = Resolved stores ->
  exists data json,
    file = FileUpload.ReaderLoad data
    /\ sheet_to_json data = Some json
    /\ length stores = length json
    /\ (forall i row,
          json !! i = Some row ->
          exists s, stores !! i = Some s
                    /\ s = FileUpload.row_to_store parseFloat i row
                    /\ Types.id s = store_id i
                    /\ Types.city s = FileUpload.City row)
    /\ Types.id <$> stores = store_id <$> seq 0 (length json)
    /\ NoDup (Types.id <$> stores).
Proof.
  intros H. apply parseExcelFile_resolved in H as (data & json & -> & Hj & ->).
  exists data, json. split_and!; try done.
  - apply length_imap.
  - intros i row Hrow. eexists. rewrite list_lookup_imap, Hrow. by split_and!.
  - apply imap_row_to_store_ids.
  - rewrite imap_row_to_store_ids. apply (NoDup_fmap_2 _), NoDup_seq.
Qed.

End FileUploadFacts.

Lemma parseExcelFile_one_store_per_row_witness :
  exists data json,
    FileUpload.ReaderLoad [] = FileUpload.ReaderLoad data
    /\ Some sample_rows = Some json
    /\ length (imap (FileUpload.row_to_store sample_parseFloat) sample_rows)
       = length json
    /\ (forall i row,
          json !! i = Some row ->
          exists s,
            imap (FileUpload.row_to_store sample_parseFloat) sample_rows !! i
            = Some s
            /\ s = FileUpload.row_to_store sample_parseFloat i row
            /\ Types.id s = store_id i
            /\ Types.city s = FileUpload.City row)
    /\ Types.id <$> imap (FileUpload.row_to_store sample_parseFloat) sample_rows
       = store_id <$> seq 0 (length json)
    /\ NoDup (Types.id <$> imap (FileUpload.row_to_store sample_parseFloat)
                          sample_rows).
Proof.
  apply (parseExcelFile_one_store_per_row sample_parseFloat
           (fun _ => Some sample_rows) (FileUpload.ReaderLoad [])).
  reflexivity.
Defined.

Example sample_ids :
  Types.id <$> imap (FileUpload.row_to_store sample_parseFloat) sample_rows
  = ["store-0"; "store-1"].
Proof. reflexivity. Qed.

Example store_id_10 : store_id 10 = "store-10".
Proof. reflexivity. Qed.

(** ** Application shell *)

(** C7.  Whatever the shell state, [handleDataUpload] makes the store list
    the new records and the selection none, and keeps the rest; and a press
    of the upload button does exactly that when the file parses, and leaves
    the shell as it is when it does not. *)
Theorem handleDataUpload_replaces_and_clears :
  (forall data st,
     App.stores (App.handleDataUpload data st) = data
     /\ App.selectedStore (App.handleDataUpload data st) = None
     /\ App.userLocation (App.handleDataUpload data st) = App.userLocation st
     /\ App.showGeolocationPrompt (App.handleDataUpload data st)
        = App.showGeolocationPrompt st)
  /\ (forall parseFloat sheet_to_json file fu st,
        match FileUpload.parseExcelFile parseFloat sheet_to_json <$> file with
        | Some (Resolved data) =>
            App.stores (App.upload parseFloat sheet_to_json file fu st).2 = data
            /\ App.selectedStore
                 (App.upload parseFloat sheet_to_json file fu st).2 = None
        | _ => (App.upload parseFloat sheet_to_json file fu st).2 = st
        end).
Proof.
  split; [done|].
  intros pf sj file fu st. unfold App.upload, FileUpload.handleUpload.
  destruct file as [f|]; simpl; [|done].
  by destruct (FileUpload.parseExcelFile pf sj f).
Qed.

(** ** Citations of one response *)

Lemma fold_left_pushes {A} (f : list string -> A -> list string)
    (g : A -> list string) (l : list A) :
  (forall acc x, f acc x = acc ++ g x) ->
  forall acc, fold_left f l acc = acc ++ flat_map g l.
Proof.
  intros Hf. induction l as [|x l IH]; intros acc; simpl.
  - by rewrite app_nil_r.
  - by rewrite IH, Hf, <- app_assoc.
Qed.

Lemma push_uri_present uris u : Chatbot.push_uri uris u = uris ++ present u.
Proof.
  unfold Chatbot.push_uri, present. destruct u as [s|]; [|by rewrite app_nil_r].
  destruct (truthy (Some s)); [done|by rewrite app_nil_r].
Qed.

Lemma snippets_loop_app uris snippets :
  Chatbot.snippets_loop uris snippets
  = uris ++ flat_map (fun sn => present (Chatbot.snippet_uri sn)) snippets.
Proof.
  unfold Chatbot.snippets_loop. apply fold_left_pushes.
  intros acc sn. apply push_uri_present.
Qed.

Lemma sources_loop_app uris sources :
  Chatbot.sources_loop uris sources = uris ++ flat_map source_uris sources.
Proof.
  unfold Chatbot.sources_loop. apply fold_left_pushes.
  intros acc src. unfold source_uris.
  destruct (Chatbot.reviewSnippets src) as [sns|].
  - apply snippets_loop_app.
  - by rewrite app_nil_r.
Qed.

Lemma chunk_body_app uris chunk :
  Chatbot.chunk_body uris chunk = uris ++ chunk_uris chunk.
Proof.
  unfold Chatbot.chunk_body, chunk_uris.
  destruct (Chatbot.web chunk) as [w|], (Chatbot.maps chunk) as [m|]; simpl;
    try destruct (Chatbot.placeAnswerSources m) as [srcs|];
    rewrite ?sources_loop_app, ?push_uri_present, ?app_nil_r, <- ?app_assoc;
    done.
Qed.

Lemma extractGroundingUris_flat_map response :
  Chatbot.extractGroundingUris response
  = flat_map chunk_uris (first_candidate_chunks response).
Proof.
  unfold Chatbot.extractGroundingUris, first_candidate_chunks.
  destruct (Chatbot.candidates response) as [[|c0 rest]|]; try done.
  destruct (Chatbot.groundingMetadata c0) as [gm|]; [|done].
  destruct (Chatbot.groundingChunks gm) as [chunks|]; [|done]. simpl.
  by rewrite (fold_left_pushes _ chunk_uris) by apply chunk_body_app.
Qed.

(** C10.  [extractGroundingUris] returns, for the grounding chunks of the
    first candidate taken in order, the web URI if present, then the maps
    URI if present, then the review-snippet URIs of every place-answer
    source (present meaning defined and non-empty); and the result does not
    depend on the candidates after the first, nor on the text. *)
Theorem extractGroundingUris_first_candidate_only :
  (forall response,
     Chatbot.extractGroundingUris response
     = flat_map chunk_uris (first_candidate_chunks response))
  /\ (forall c0 others others' text text',
        Chatbot.extractGroundingUris
          {| Chatbot.candidates := Some (c0 :: others); Chatbot.text := text |}
        = Chatbot.extractGroundingUris
            {| Chatbot.candidates := Some (c0 :: others');
               Chatbot.text := text' |})
  /\ (forall text,
        Chatbot.extractGroundingUris
          {| Chatbot.candidates := None; Chatbot.text := text |} = []
        /\ Chatbot.extractGroundingUris
             {| Chatbot.candidates := Some []; Chatbot.text := text |} = []).
Proof.
  split_and!; [apply extractGroundingUris_flat_map|done|done].
Qed.

(** ** Removing duplicates *)

Lemma dedup_first_elem_of l x : x ∈ dedup_first l <-> x ∈ l.
Proof.
  induction l as [|y l IH]; simpl; [done|].
  rewrite !elem_of_cons, list_elem_of_filter, IH.
  destruct (decide (x = y)); naive_solver.
Qed.

Lemma dedup_first_NoDup l : NoDup (dedup_first l).
Proof.
  induction l as [|y l IH]; simpl; constructor.
  - rewrite list_elem_of_filter. naive_solver.
  - by apply NoDup_filter.
Qed.

Lemma filter_all {A} (P : A -> Prop) `{!forall x, Decision (P x)} (l : list A) :
  (forall x, x ∈ l -> P x) -> filter P l = l.
Proof.
  induction l as [|y l IH]; intros Hall; [done|].
  rewrite filter_cons_True by (apply Hall; left).
  f_equal. apply IH. intros x Hx. apply Hall. by right.
Qed.

Lemma dedup_first_id l : NoDup l -> dedup_first l = l.
Proof.
  induction 1 as [|y l Hy Hnd IH]; simpl; [done|].
  rewrite IH. f_equal. apply filter_all. intros x Hx ->. done.
Qed.

Lemma dedup_first_idemp l : dedup_first (dedup_first l) = dedup_first l.
Proof. apply dedup_first_id, dedup_first_NoDup. Qed.

Lemma dedup_first_filter (P : string -> Prop) `{!forall x, Decision (P x)} l :
  dedup_first (filter P l) = filter P (dedup_first l).
Proof.
  induction l as [|y l IH]; simpl; [done|].
  rewrite !filter_cons. destruct (decide (P y)) as [Hy|Hy]; simpl.
  - rewrite IH, !list_filter_filter. f_equal.
    apply list_filter_iff. naive_solver.
  - rewrite IH, list_filter_filter. apply list_filter_iff.
    intros x. split; [|naive_solver]. intros Hx. split; [done|]. by intros ->.
Qed.

(** A [Set] filled from [acc] and then from [l]. *)
Lemma fold_Set_add l : forall acc,
  fold_left Chatbot.Set_add l acc
  = acc ++ dedup_first (filter (fun x => x ∉ acc) l).
Proof.
  induction l as [|y l IH]; intros acc; simpl.
  - by rewrite app_nil_r.
  - unfold Chatbot.Set_add at 2. rewrite filter_cons.
    destruct (decide (y ∈ acc)) as [Hy|Hy].
    + rewrite decide_False by naive_solver. apply IH.
    + rewrite decide_True by done. simpl.
      rewrite IH, <- app_assoc. simpl. do 2 f_equal.
      rewrite <- dedup_first_filter. f_equal.
      rewrite list_filter_filter. apply list_filter_iff.
      intros x. rewrite elem_of_app, list_elem_of_singleton. naive_solver.
Qed.

Lemma Set_spread_dedup_first l : Chatbot.Set_spread l = dedup_first l.
Proof.
  unfold Chatbot.Set_spread. rewrite fold_Set_add. simpl. f_equal.
  apply filter_all. intros x _. apply not_elem_of_nil.
Qed.

Lemma Set_spread_app l k :
  Chatbot.Set_spread (l ++ k)
  = fold_left Chatbot.Set_add k (Chatbot.Set_spread l).
Proof. apply fold_left_app. Qed.

Lemma dedup_first_app_dedup l k :
  dedup_first (dedup_first l ++ k) = dedup_first (l ++ k).
Proof.
  transitivity (Chatbot.Set_spread (dedup_first l ++ k));
    [symmetry; apply Set_spread_dedup_first|].
  rewrite Set_spread_app, Set_spread_dedup_first, dedup_first_idemp.
  rewrite <- (Set_spread_dedup_first l), <- Set_spread_app.
  apply Set_spread_dedup_first.
Qed.

Example dedup_first_sample :
  dedup_first ["a"; "b"; "a"; "c"; "b"; "d"] = ["a"; "b"; "c"; "d"].
Proof. reflexivity. Qed.

(** ** The streaming loop *)

Lemma update_placeholder_snoc full all base m :
  Types.role m = Types.model ->
  Chatbot.update_placeholder full all (base ++ [m])
  = base ++ [ {| Types.role := Types.model;
                 Types.parts := Types.PString full;
                 Types.timestamp := Types.timestamp m;
                 Types.groundingUris := Some all |} ].
Proof.
  intros Hrole. unfold Chatbot.update_placeholder.
  rewrite last_snoc, decide_True by done.
  rewrite length_app. simpl.
  replace (length base + 1 - 1) with (length base + 0) by lia.
  rewrite insert_app_r. simpl. by rewrite Hrole.
Qed.

Lemma replace_with_apology_snoc now base m :
  Chatbot.replace_with_apology now (base ++ [m])
  = base ++ [Chatbot.model_message Chatbot.apology_message now].
Proof.
  unfold Chatbot.replace_with_apology.
  destruct (base ++ [m]) as [|x l] eqn:E.
  { by destruct base. }
  rewrite <- E, length_app. simpl.
  replace (length base + 1 - 1) with (length base + 0) by lia.
  by rewrite insert_app_r.
Qed.

(** One iteration keeps the placeholder last and rewrites it with the
    running totals; nothing else in the component state changes. *)
Lemma on_chunk_state base m l chunk :
  Chatbot.messages (Chatbot.loop_state l) = base ++ [m] ->
  Types.role m = Types.model ->
  Chatbot.loop_state (Chatbot.on_chunk l chunk)
  = {| Chatbot.messages :=
         base ++ [ {| Types.role := Types.model;
                      Types.parts :=
                        Types.PString
                          (Chatbot.fullResponseText (Chatbot.on_chunk l chunk));
                      Types.timestamp := Types.timestamp m;
                      Types.groundingUris :=
                        Some (Chatbot.allGroundingUris (Chatbot.on_chunk l chunk)) |} ];
       Chatbot.inputMessage := Chatbot.inputMessage (Chatbot.loop_state l);
       Chatbot.loading := Chatbot.loading (Chatbot.loop_state l);
       Chatbot.chatRef := Chatbot.chatRef (Chatbot.loop_state l) |}.
Proof.
  intros Hm Hrole. unfold Chatbot.on_chunk. simpl.
  unfold Chatbot.setMessages. rewrite Hm.
  by rewrite update_placeholder_snoc.
Qed.

Lemma fold_on_chunk_state base chunks : forall l m,
  Chatbot.messages (Chatbot.loop_state l) = base ++ [m] ->
  Types.role m = Types.model ->
  exists m',
    Chatbot.loop_state (fold_left Chatbot.on_chunk chunks l)
    = {| Chatbot.messages := base ++ [m'];
         Chatbot.inputMessage := Chatbot.inputMessage (Chatbot.loop_state l);
         Chatbot.loading := Chatbot.loading (Chatbot.loop_state l);
         Chatbot.chatRef := Chatbot.chatRef (Chatbot.loop_state l) |}
    /\ Types.role m' = Types.model
    /\ Types.timestamp m' = Types.timestamp m
    /\ (chunks = [] -> m' = m)
    /\ (chunks <> [] ->
        Types.groundingUris m'
        = Some (Chatbot.allGroundingUris (fold_left Chatbot.on_chunk chunks l))).
Proof.
  induction chunks as [|chunk chunks IH] using rev_ind; intros l m Hm Hrole.
  - exists m. simpl. split_and!; try done.
    rewrite <- Hm. by destruct (Chatbot.loop_state l).
  - destruct (IH l m Hm Hrole) as (m1 & Hst & Hr1 & Ht1 & _ & _).
    rewrite fold_left_app. cbn [fold_left].
    eexists. split_and!.
    + rewrite (on_chunk_state base m1); [|by rewrite Hst|done].
      rewrite Hst. cbn [Chatbot.inputMessage Chatbot.loading Chatbot.chatRef].
      reflexivity.
    + done.
    + done.
    + intros E. by destruct chunks.
    + done.
Qed.

(** The accumulated list after any number of chunks. *)
Lemma fold_on_chunk_uris chunks : forall l,
  Chatbot.allGroundingUris l = [] ->
  Chatbot.allGroundingUris (fold_left Chatbot.on_chunk chunks l)
  = dedup_first (flat_map Chatbot.extractGroundingUris chunks).
Proof.
  induction chunks as [|chunk chunks IH] using rev_ind; intros l Hl; [done|].
  rewrite fold_left_app, flat_map_app. cbn [fold_left flat_map].
  rewrite app_nil_r. unfold Chatbot.on_chunk at 1.
  cbn [Chatbot.allGroundingUris]. rewrite (IH l Hl).
  destruct (decide (0 < length (Chatbot.extractGroundingUris chunk))) as [Hlen|Hlen].
  - by rewrite Set_spread_dedup_first, dedup_first_app_dedup.
  - destruct (Chatbot.extractGroundingUris chunk); simpl in Hlen; [|lia].
    by rewrite app_nil_r.
Qed.

Lemma run_stream_uris chunks st :
  Chatbot.allGroundingUris (Chatbot.run_stream chunks st)
  = dedup_first (flat_map Chatbot.extractGroundingUris chunks).
Proof. by apply fold_on_chunk_uris. Qed.

(** ** Sending a message *)

Lemma handleSendMessage_unblocked trim p provider t_user t_placeholder t_error st :
  Chatbot.send_blocked trim st = false ->
  Chatbot.handleSendMessage trim p provider t_user t_placeholder t_error st
  = (Chatbot.setLoading false
       (if Chatbot.stream_fails (provider (request_of p st))
        then Chatbot.setMessages (Chatbot.replace_with_apology t_error)
               (Chatbot.loop_state
                  (Chatbot.run_stream
                     (Chatbot.stream_chunks (provider (request_of p st)))
                     (submitted t_user t_placeholder st)))
        else Chatbot.loop_state
               (Chatbot.run_stream
                  (Chatbot.stream_chunks (provider (request_of p st)))
                  (submitted t_user t_placeholder st))),
     [request_of p st]).
Proof. intros Hb. unfold Chatbot.handleSendMessage. by rewrite Hb. Qed.

Lemma handleSendMessage_blocked trim p provider t_user t_placeholder t_error st :
  Chatbot.send_blocked trim st = true ->
  Chatbot.handleSendMessage trim p provider t_user t_placeholder t_error st
  = (st, []).
Proof. intros Hb. unfold Chatbot.handleSendMessage. by rewrite Hb. Qed.

(** The loop started by [handleSendMessage] keeps the shape of the list:
    the old messages, the user message, then the placeholder. *)
Lemma run_stream_submitted chunks t_user t_placeholder st :
  exists m,
    Chatbot.loop_state
      (Chatbot.run_stream chunks (submitted t_user t_placeholder st))
    = {| Chatbot.messages :=
           (Chatbot.messages st
            ++ [Chatbot.user_message (Chatbot.inputMessage st) t_user]) ++ [m];
         Chatbot.inputMessage := "";
         Chatbot.loading := true;
         Chatbot.chatRef := Chatbot.chatRef st |}
    /\ Types.role m = Types.model
    /\ (chunks = [] -> m = Chatbot.model_message "..." t_placeholder)
    /\ (chunks <> [] ->
        Types.groundingUris m
        = Some (dedup_first (flat_map Chatbot.extractGroundingUris chunks))).
Proof.
  unfold Chatbot.run_stream.
  destruct (fold_on_chunk_state
              (Chatbot.messages st
               ++ [Chatbot.user_message (Chatbot.inputMessage st) t_user])
              chunks
              {| Chatbot.fullResponseText := "";
                 Chatbot.allGroundingUris := [];
                 Chatbot.loop_state := submitted t_user t_placeholder st |}
              (Chatbot.model_message "..." t_placeholder))
    as (m & Hst & Hrole & _ & Hnil & Hcons).
  - simpl. by rewrite <- app_assoc.
  - done.
  - exists m. split_and!; try done.
    intros Hne. rewrite (Hcons Hne). f_equal. by apply fold_on_chunk_uris.
Qed.

(** C3.  When a send goes through and the stream ends normally, the
    message list is the old one, the user message and the assistant
    message; the citation list of the assistant message is the
    concatenation of the URIs extracted from the chunks, in order, with
    duplicates removed and the first occurrence of each kept.  With no
    chunk at all the placeholder carries no list, and the message shows no
    source, like the empty list. *)
Theorem citations_deduplicated_first_seen
    trim p provider t_user t_placeholder t_error st :
  Chatbot.send_blocked trim st = false ->
  Chatbot.stream_fails (provider (request_of p st)) = false ->
  exists m,
    Chatbot.messages
      (Chatbot.handleSendMessage trim p provider t_user t_placeholder t_error st).1
    = Chatbot.messages st
      ++ [Chatbot.user_message (Chatbot.inputMessage st) t_user; m]
    /\ Types.role m = Types.model
    /\ Chatbot.rendered_sources m
       = dedup_first
           (flat_map Chatbot.extractGroundingUris
              (Chatbot.stream_chunks (provider (request_of p st))))
    /\ (Chatbot.stream_chunks (provider (request_of p st)) <> [] ->
        Types.groundingUris m
        = Some (dedup_first
                  (flat_map Chatbot.extractGroundingUris
                     (Chatbot.stream_chunks (provider (request_of p st))))))
    /\ (Chatbot.stream_chunks (provider (request_of p st)) = [] ->
        Types.groundingUris m = None)
    /\ Chatbot.allGroundingUris
         (Chatbot.run_stream
            (Chatbot.stream_chunks (provider (request_of p st)))
            (submitted t_user t_placeholder st))
       = dedup_first
           (flat_map Chatbot.extractGroundingUris
              (Chatbot.stream_chunks (provider (request_of p st)))).
Proof.
  intros Hb Hok. rewrite handleSendMessage_unblocked, Hok by done.
  destruct (run_stream_submitted
              (Chatbot.stream_chunks (provider (request_of p st)))
              t_user t_placeholder st) as (m & Hst & Hrole & Hnil & Hcons).
  exists m. rewrite Hst. simpl. split_and!.
  - by rewrite <- app_assoc.
  - done.
  - destruct (Chatbot.stream_chunks (provider (request_of p st))) as [|c cs] eqn:E.
    + by rewrite Hnil.
    + unfold Chatbot.rendered_sources. by rewrite Hcons.
  - done.
  - intros E. by rewrite Hnil.
  - apply run_stream_uris.
Qed.

Lemma citations_deduplicated_first_seen_witness :
  exists m,
    last (Chatbot.messages
            (Chatbot.handleSendMessage sample_trim
               {| Chatbot.stores := [jakarta]; Chatbot.selectedStore := None;
                  Chatbot.userLocation := None |}
               sample_provider 0%Z 0%Z 0%Z sample_chat).1) = Some m
    /\ Types.groundingUris m
       = Some ["https://a.example/x"; "https://maps.example/1";
               "https://b.example/y"].
Proof.
  destruct (citations_deduplicated_first_seen sample_trim
              {| Chatbot.stores := [jakarta]; Chatbot.selectedStore := None;
                 Chatbot.userLocation := None |}
              sample_provider 0%Z 0%Z 0%Z sample_chat eq_refl eq_refl)
    as (m & Hm & _ & _ & Hsome & _).
  exists m. split.
  - rewrite Hm. reflexivity.
  - rewrite Hsome; [reflexivity|discriminate].
Defined.

(** C4.  When a send goes through and the stream fails, at the opening or
    after any number of chunks, the component ends with the old messages,
    the user message and one message holding the fixed apology and no
    citation list, whatever text had been streamed; the input is cleared,
    [loading] is off, and [sendMessageStream] was called once. *)
Theorem stream_failure_shows_apology
    trim p provider t_user t_placeholder t_error st :
  Chatbot.send_blocked trim st = false ->
  Chatbot.stream_fails (provider (request_of p st)) = true ->
  Chatbot.handleSendMessage trim p provider t_user t_placeholder t_error st
  = ({| Chatbot.messages :=
          Chatbot.messages st
          ++ [Chatbot.user_message (Chatbot.inputMessage st) t_user;
              {| Types.role := Types.model;
                 Types.parts := Types.PString Chatbot.apology_message;
                 Types.timestamp := t_error;
                 Types.groundingUris := None |}];
        Chatbot.inputMessage := "";
        Chatbot.loading := false;
        Chatbot.chatRef := Chatbot.chatRef st |},
     [request_of p st]).
Proof.
  intros Hb Hfail. rewrite handleSendMessage_unblocked, Hfail by done.
  destruct (run_stream_submitted
              (Chatbot.stream_chunks (provider (request_of p st)))
              t_user t_placeholder st) as (m & Hst & _).
  rewrite Hst. unfold Chatbot.setMessages, Chatbot.setLoading. simpl.
  by rewrite replace_with_apology_snoc, <- app_assoc.
Qed.

Lemma stream_failure_shows_apology_witness :
  Chatbot.handleSendMessage sample_trim
    {| Chatbot.stores := [jakarta]; Chatbot.selectedStore := None;
       Chatbot.userLocation := None |}
    failing_provider 1%Z 2%Z 3%Z sample_chat
  = ({| Chatbot.messages :=
          [Chatbot.user_message "Which store sells most?" 1%Z;
           Chatbot.model_message Chatbot.apology_message 3%Z];
        Chatbot.inputMessage := "";
        Chatbot.loading := false;
        Chatbot.chatRef := Chatbot.chatRef sample_chat |},
     [ {| Chatbot.message := "Which store sells most?";
          Chatbot.config := {| Chatbot.toolConfig := None |} |} ]).
Proof.
  apply (stream_failure_shows_apology sample_trim
           {| Chatbot.stores := [jakarta]; Chatbot.selectedStore := None;
              Chatbot.userLocation := None |}
           failing_provider 1%Z 2%Z 3%Z sample_chat); reflexivity.
Defined.

(** The text streamed before the failure of the sample was on display. *)
Example partial_text_before_failure :
  Types.parts
    <$> last (Chatbot.messages
                (Chatbot.loop_state
                   (Chatbot.run_stream
                      (Chatbot.stream_chunks (failing_provider (request_of
                         {| Chatbot.stores := []; Chatbot.selectedStore := None;
                            Chatbot.userLocation := None |} sample_chat)))
                      (submitted 1%Z 2%Z sample_chat))))
  = Some (Types.PString "text text ").
Proof. reflexivity. Qed.

(** C5.  With no credential at mount ([process.env.API_KEY] undefined or
    empty), the effect creates no session, the message list holds the one
    fixed error message, the input and the button are disabled, and a send
    does nothing and calls the provider not at all. *)
Theorem missing_credential_disables_chat model_name API_KEY sdk_throws now :
  API_KEY = None \/ API_KEY = Some "" ->
  Chatbot.chatRef
    (Chatbot.init_effect model_name API_KEY sdk_throws now Chatbot.initial)
  = None
  /\ Chatbot.messages
       (Chatbot.init_effect model_name API_KEY sdk_throws now Chatbot.initial)
     = [ {| Types.role := Types.model;
            Types.parts := Types.PString Chatbot.key_missing_message;
            Types.timestamp := now;
            Types.groundingUris := None |} ]
  /\ Chatbot.input_disabled
       (Chatbot.init_effect model_name API_KEY sdk_throws now Chatbot.initial)
     = true
  /\ (forall trim,
        Chatbot.button_disabled trim
          (Chatbot.init_effect model_name API_KEY sdk_throws now Chatbot.initial)
        = true)
  /\ (forall trim p provider t_user t_placeholder t_error text,
        Chatbot.handleSendMessage trim p provider t_user t_placeholder t_error
          (Chatbot.setInputMessage text
             (Chatbot.init_effect model_name API_KEY sdk_throws now
                Chatbot.initial))
        = (Chatbot.setInputMessage text
             (Chatbot.init_effect model_name API_KEY sdk_throws now
                Chatbot.initial), [])).
Proof.
  intros Hkey.
  assert (truthy API_KEY = false) as Hfalsy by (by destruct Hkey as [->| ->]).
  assert (Chatbot.init_effect model_name API_KEY sdk_throws now Chatbot.initial
          = {| Chatbot.messages :=
                 [Chatbot.model_message Chatbot.key_missing_message now];
               Chatbot.inputMessage := ""; Chatbot.loading := false;
               Chatbot.chatRef := None |}) as ->.
  { unfold Chatbot.init_effect. destruct API_KEY as [key|]; [|done].
    by rewrite Hfalsy. }
  split_and!; try done.
  - intros trim. unfold Chatbot.button_disabled, Chatbot.send_blocked. simpl.
    by rewrite orb_true_r.
  - intros. apply handleSendMessage_blocked.
    unfold Chatbot.send_blocked. simpl. by rewrite orb_true_r.
Qed.

Lemma missing_credential_disables_chat_witness :
  Chatbot.chatRef (Chatbot.init_effect "flash" None false 7%Z Chatbot.initial)
  = None
  /\ Chatbot.messages
       (Chatbot.init_effect "flash" None false 7%Z Chatbot.initial)
     = [ {| Types.role := Types.model;
            Types.parts := Types.PString Chatbot.key_missing_message;
            Types.timestamp := 7%Z;
            Types.groundingUris := None |} ]
  /\ Chatbot.input_disabled
       (Chatbot.init_effect "flash" None false 7%Z Chatbot.initial)
     = true.
Proof.
  destruct (missing_credential_disables_chat "flash" None false 7%Z
              (or_introl eq_refl)) as (H1 & H2 & H3 & _).
  exact (conj H1 (conj H2 H3)).
Defined.

(** With a credential the session is created and the input is enabled. *)
Example credential_present_enables_chat :
  Chatbot.input_disabled
    (Chatbot.init_effect "flash" (Some "key") false 7%Z Chatbot.initial)
  = false.
Proof. reflexivity. Qed.

(** ** Location bias *)

Lemma handleSendMessage_requests trim p provider t_user t_placeholder t_error st :
  (Chatbot.handleSendMessage trim p provider t_user t_placeholder t_error st).2
  = if Chatbot.send_blocked trim st then [] else [request_of p st].
Proof.
  unfold Chatbot.handleSendMessage. by destruct (Chatbot.send_blocked trim st).
Qed.

(** C2.  Every request [handleSendMessage] sends carries the typed text and
    a bias chosen by priority: the coordinate of the selected store when a
    store is selected; otherwise the user's coordinate when there is one;
    otherwise no [toolConfig] at all.  So when the shell has recorded a
    position and a store is then selected, the bias is the store's
    coordinate. *)
Theorem location_bias_priority
    trim p provider t_user t_placeholder t_error st r :
  r ∈ (Chatbot.handleSendMessage trim p provider t_user t_placeholder t_error st).2 ->
  Chatbot.message r = Chatbot.inputMessage st
  /\ match Chatbot.selectedStore p, Chatbot.userLocation p with
     | Some s, _ => location_bias r = Some (coordinate s)
     | None, Some u => location_bias r = Some u
     | None, None =>
         Chatbot.toolConfig (Chatbot.config r) = None /\ location_bias r = None
     end
  /\ (forall app position store,
        p = chat_props
              (App.handleStoreSelect (Some store)
                 (App.geolocationSuccess position app)) ->
        location_bias r
        = Some {| Types.lat_latitude := Types.latitude store;
                  Types.lat_longitude := Types.longitude store |}).
Proof.
  rewrite handleSendMessage_requests.
  destruct (Chatbot.send_blocked trim st); [by intros ?%elem_of_nil|].
  intros ->%list_elem_of_singleton. split_and!.
  - done.
  - unfold request_of, location_bias, Chatbot.choose_retrievalConfig. simpl.
    by destruct (Chatbot.selectedStore p), (Chatbot.userLocation p).
  - by intros app position store ->.
Qed.

Lemma location_bias_priority_witness :
  Chatbot.message
    (request_of
       (chat_props
          (App.handleStoreSelect (Some jakarta)
             (App.geolocationSuccess sample_position App.initial)))
       sample_chat)
  = "Which store sells most?"
  /\ location_bias
       (request_of
          (chat_props
             (App.handleStoreSelect (Some jakarta)
                (App.geolocationSuccess sample_position App.initial)))
          sample_chat)
     = Some {| Types.lat_latitude := S754_finite true 6980579422424269 (-50);
               Types.lat_longitude := S754_finite false 7515381878174515 (-46) |}.
Proof.
  destruct (location_bias_priority sample_trim
              (chat_props
                 (App.handleStoreSelect (Some jakarta)
                    (App.geolocationSuccess sample_position App.initial)))
              sample_provider 0%Z 0%Z 0%Z sample_chat
              (request_of
                 (chat_props
                    (App.handleStoreSelect (Some jakarta)
                       (App.geolocationSuccess sample_position App.initial)))
                 sample_chat)) as (H1 & H2 & _).
  - vm_compute. left.
  - split; [exact H1|exact H2].
Defined.

(** With no store selected the same request is biased toward the user. *)
Example bias_falls_back_to_user :
  location_bias
    (request_of
       (chat_props (App.geolocationSuccess sample_position App.initial))
       sample_chat)
  = Some sample_position.
Proof. reflexivity. Qed.

(** ** Strict equality of numbers *)

Ltac strict_eq_no :=
  split; [discriminate | intros [[? ?]|(? & ? & ? & ?)]; congruence].

Ltac strict_eq_yes :=
  split; [intros _; solve [left; by split | right; eauto] | done].

(** [===] holds between two numbers when they are the same value other
    than NaN, or when both are zeros (of either sign). *)
Lemma strict_eq_true x y :
  strict_eq x y = true
  <-> (x = y /\ x <> NaN) \/ (exists s s', x = S754_zero s /\ y = S754_zero s').
Proof.
  unfold strict_eq, SFeqb, SFcompare, NaN.
  destruct x as [sx|sx| |sx mx ex], y as [sy|sy| |sy my ey];
    try destruct sx; try destruct sy;
    try strict_eq_no; try strict_eq_yes.
  all: change (Pos.compare_cont Eq mx my) with (Pos.compare mx my).
  all: destruct (Z.compare_spec ex ey) as [->|Hlt|Hgt].
  all: try (split; [discriminate
                   |intros [[[= ? ?] ?]|(? & ? & ? & ?)]; [lia|congruence]]).
  all: destruct (Pos.compare_spec mx my) as [->|Hlt|Hgt]; simpl.
  all: try strict_eq_yes.
  all: try (split; [discriminate
                   |intros [[[= ?] ?]|(? & ? & ? & ?)]; [lia|congruence]]).
Qed.

Lemma strict_eq_sym x y : strict_eq x y = true -> strict_eq y x = true.
Proof.
  rewrite !strict_eq_true. intros [[-> ?]|(s & s' & -> & ->)]; [left|right]; eauto.
Qed.

Lemma strict_eq_trans x y z :
  strict_eq x y = true -> strict_eq y z = true -> strict_eq x z = true.
Proof.
  rewrite !strict_eq_true.
  intros [[Hxy Hx]|(s & s' & Hx & Hy)] [[Hyz Hy']|(t & t' & Hy' & Hz)]; subst.
  - left. split; done.
  - right. exists t, t'. split; done.
  - right. exists s, s'. split; done.
  - right. exists s, t'. split; done.
Qed.

Example NaN_not_strict_eq : strict_eq NaN NaN = false.
Proof. reflexivity. Qed.

Example zeros_strict_eq : strict_eq (S754_zero true) (S754_zero false) = true.
Proof. reflexivity. Qed.

Example icon_literals_binary64 :
  forallb binary64
    [MapVisualization.num_0; MapVisualization.num_0_8; MapVisualization.num_0_9;
     MapVisualization.num_8; MapVisualization.num_10] = true.
Proof. reflexivity. Qed.

(** ** Markers *)

(** The icon the last loop of the marker effect gives a marker. *)
Lemma sync_pass_markers selected markers : forall i iw,
  (MapVisualization.sync_pass selected i markers iw).1
  = map (fun m =>
           MapVisualization.setIcon
             (if MapVisualization.matches_selected selected m
              then MapVisualization.selected_icon
              else MapVisualization.unselected_icon) m) markers.
Proof.
  induction markers as [|m rest IH]; intros i iw; simpl; [done|].
  destruct (MapVisualization.matches_selected selected m).
  - specialize (IH (S i)
                  match iw with
                  | Some _ =>
                      Some {| MapVisualization.content := selected;
                              MapVisualization.anchor := Some i |}
                  | None => None
                  end).
    destruct (MapVisualization.sync_pass selected (S i) rest _) as [rest' iw2].
    simpl in *. by rewrite IH.
  - specialize (IH (S i) iw).
    destruct (MapVisualization.sync_pass selected (S i) rest iw) as [rest' iw2].
    simpl in *. by rewrite IH.
Qed.

Lemma marker_effect_markers p st gm :
  MapVisualization.googleMap (MapVisualization.comp st) = Some gm ->
  MapVisualization.google_maps (MapVisualization.page st) = true ->
  MapVisualization.markersRef
    (MapVisualization.comp (MapVisualization.marker_effect p st))
  = (fun store =>
       MapVisualization.setIcon
         (if MapVisualization.matches_selected
               (MapVisualization.selectedStore p)
               (MapVisualization.create_marker
                  (MapVisualization.selectedStore p) store)
          then MapVisualization.selected_icon
          else MapVisualization.unselected_icon)
         (MapVisualization.create_marker (MapVisualization.selectedStore p) store))
    <$> MapVisualization.stores p.
Proof.
  intros Hmap Hsdk. unfold MapVisualization.marker_effect. rewrite Hmap, Hsdk.
  pose proof (sync_pass_markers (MapVisualization.selectedStore p)
                (map (MapVisualization.create_marker
                        (MapVisualization.selectedStore p))
                   (MapVisualization.stores p))
                0 (MapVisualization.infoWindowRef (MapVisualization.comp st)))
    as Hsync.
  destruct (MapVisualization.sync_pass _ _ _ _) as [markers' iw].
  simpl in *. rewrite Hsync, map_map. reflexivity.
Qed.

Lemma matches_selected_spec selected m :
  MapVisualization.matches_selected selected m = true
  <-> exists s,
        selected = Some s
        /\ MapVisualization.getTitle m = Types.city s
        /\ strict_eq (MapVisualization.lat (MapVisualization.getPosition m))
             (Types.latitude s) = true
        /\ strict_eq (MapVisualization.lng (MapVisualization.getPosition m))
             (Types.longitude s) = true.
Proof.
  unfold MapVisualization.matches_selected. destruct selected as [s|].
  - rewrite !andb_true_iff, bool_decide_eq_true. split.
    + intros [[? ?] ?]. by exists s.
    + intros (s' & [= <-] & ? & ? & ?). done.
  - split; [done|]. by intros (s & ? & _).
Qed.

(** C9.  When the map is ready, the marker effect leaves one marker per
    store, in order, with the store's city as title and the store's
    coordinates as position, and every marker carries the selected icon or
    the unselected one; it carries the selected icon exactly when a store is
    selected whose city is the marker's title and whose latitude and
    longitude are [===] to the marker's position.  The identifier plays
    no part: of two stores with the same city and coordinates, both
    markers carry the selected icon as soon as either store is selected. *)
Theorem marker_highlight_by_title_and_position p st gm :
  MapVisualization.googleMap (MapVisualization.comp st) = Some gm ->
  MapVisualization.google_maps (MapVisualization.page st) = true ->
  length (MapVisualization.markersRef
            (MapVisualization.comp (MapVisualization.marker_effect p st)))
  = length (MapVisualization.stores p)
  /\ (forall i store,
        MapVisualization.stores p !! i = Some store ->
        exists m,
          MapVisualization.markersRef
            (MapVisualization.comp (MapVisualization.marker_effect p st)) !! i
          = Some m
          /\ MapVisualization.getTitle m = Types.city store
          /\ MapVisualization.getPosition m
             = {| MapVisualization.lat := Types.latitude store;
                  MapVisualization.lng := Types.longitude store |}
          /\ (MapVisualization.icon m = MapVisualization.selected_icon
              \/ MapVisualization.icon m = MapVisualization.unselected_icon)
          /\ (MapVisualization.icon m = MapVisualization.selected_icon
              <-> exists s,
                    MapVisualization.selectedStore p = Some s
                    /\ MapVisualization.getTitle m = Types.city s
                    /\ strict_eq
                         (MapVisualization.lat (MapVisualization.getPosition m))
                         (Types.latitude s) = true
                    /\ strict_eq
                         (MapVisualization.lng (MapVisualization.getPosition m))
                         (Types.longitude s) = true))
  /\ (forall i j s1 s2,
        MapVisualization.stores p !! i = Some s1 ->
        MapVisualization.stores p !! j = Some s2 ->
        Types.city s1 = Types.city s2 ->
        strict_eq (Types.latitude s1) (Types.latitude s2) = true ->
        strict_eq (Types.longitude s1) (Types.longitude s2) = true ->
        MapVisualization.selectedStore p = Some s1
        \/ MapVisualization.selectedStore p = Some s2 ->
        MapVisualization.icon
          <$> MapVisualization.markersRef
                (MapVisualization.comp (MapVisualization.marker_effect p st)) !! i
        = Some MapVisualization.selected_icon
        /\ MapVisualization.icon
             <$> MapVisualization.markersRef
                   (MapVisualization.comp (MapVisualization.marker_effect p st)) !! j
           = Some MapVisualization.selected_icon).
Proof.
  intros Hmap Hsdk. rewrite (marker_effect_markers p st gm Hmap Hsdk).
  assert (forall i store,
            MapVisualization.stores p !! i = Some store ->
            MapVisualization.matches_selected (MapVisualization.selectedStore p)
              (MapVisualization.create_marker
                 (MapVisualization.selectedStore p) store) = true ->
            MapVisualization.icon
              <$> ((fun store0 =>
                      MapVisualization.setIcon
                        (if MapVisualization.matches_selected
                              (MapVisualization.selectedStore p)
                              (MapVisualization.create_marker
                                 (MapVisualization.selectedStore p) store0)
                         then MapVisualization.selected_icon
                         else MapVisualization.unselected_icon)
                        (MapVisualization.create_marker
                           (MapVisualization.selectedStore p) store0))
                     <$> MapVisualization.stores p) !! i
            = Some MapVisualization.selected_icon) as Hicon.
  { intros i store Hi Hmatch. rewrite list_lookup_fmap, Hi. simpl.
    by rewrite Hmatch. }
  split_and!.
  - apply length_fmap.
  - intros i store Hi. eexists. rewrite list_lookup_fmap, Hi. simpl.
    split_and!; try done.
    + destruct (MapVisualization.matches_selected _ _); [by left|by right].
    + rewrite <- (matches_selected_spec (MapVisualization.selectedStore p)
                    (MapVisualization.create_marker
                       (MapVisualization.selectedStore p) store)).
      destruct (MapVisualization.matches_selected _ _); [done|].
      split; discriminate.
  - intros i j s1 s2 Hi Hj Hcity Hlat Hlng Hsel.
    split; [apply (Hicon i s1 Hi)|apply (Hicon j s2 Hj)];
      apply matches_selected_spec; destruct Hsel as [Hsel|Hsel];
      [exists s1|exists s2|exists s1|exists s2]; simpl;
      (split_and!; [done|congruence|..]);
      eauto using strict_eq_sym, strict_eq_trans.
Qed.

Lemma marker_highlight_by_title_and_position_witness :
  MapVisualization.icon
    <$> MapVisualization.markersRef
          (MapVisualization.comp
             (MapVisualization.marker_effect twin_props (ready_map None))) !! 0
  = Some MapVisualization.selected_icon
  /\ MapVisualization.icon
       <$> MapVisualization.markersRef
             (MapVisualization.comp
                (MapVisualization.marker_effect twin_props (ready_map None))) !! 1
     = Some MapVisualization.selected_icon.
Proof.
  destruct (marker_highlight_by_title_and_position twin_props (ready_map None)
              {| MapVisualization.center := sample_center;
                 MapVisualization.zoom := MapVisualization.num_10;
                 MapVisualization.calls := [] |} eq_refl eq_refl)
    as (_ & _ & Htwins).
  exact (Htwins 0 1 jakarta jakarta_twin eq_refl eq_refl eq_refl eq_refl eq_refl
           (or_introl eq_refl)).
Defined.

(** Selecting by identifier would tell the twins apart: the icon given at
    creation, which compares identifiers, is red for the first only. *)
Example created_icons_of_twins :
  MapVisualization.fillColor
    <$> (MapVisualization.icon
           <$> (MapVisualization.create_marker (Some jakarta)
                  <$> [jakarta; jakarta_twin]))
  = ["#FF0000"; "#0000FF"].
Proof. reflexivity. Qed.

(** A store whose latitude is NaN is never [===] to itself: its marker
    keeps the unselected icon when the store is selected. *)
Example nan_store_not_highlighted :
  MapVisualization.icon
    <$> MapVisualization.markersRef
          (MapVisualization.comp
             (MapVisualization.marker_effect
                {| MapVisualization.stores :=
                     [FileUpload.row_to_store sample_parseFloat 0
                        {| FileUpload.City := "Depok";
                           FileUpload.Latitude := FileUpload.CellString "n/a";
                           FileUpload.Longitude := FileUpload.CellString "n/a";
                           FileUpload.Sales := FileUpload.CellUndefined;
                           FileUpload.Profit := FileUpload.CellUndefined;
                           FileUpload.Employees := FileUpload.CellUndefined |}];
                   MapVisualization.selectedStore :=
                     Some (FileUpload.row_to_store sample_parseFloat 0
                        {| FileUpload.City := "Depok";
                           FileUpload.Latitude := FileUpload.CellString "n/a";
                           FileUpload.Longitude := FileUpload.CellString "n/a";
                           FileUpload.Sales := FileUpload.CellUndefined;
                           FileUpload.Profit := FileUpload.CellUndefined;
                           FileUpload.Employees := FileUpload.CellUndefined |}) |}
                (ready_map None)))
  = [MapVisualization.unselected_icon].
Proof. reflexivity. Qed.

(** ** Loading the SDK with no usable key *)

Lemma key_invalid_iff API_KEY :
  MapVisualization.key_invalid API_KEY = true
  <-> API_KEY = None \/ API_KEY = Some "" \/ API_KEY = Some "process.env.API_KEY".
Proof.
  unfold MapVisualization.key_invalid, MapVisualization.placeholder_key.
  rewrite orb_true_iff, negb_true_iff, bool_decide_eq_true.
  destruct API_KEY as [[|a k]|]; simpl; naive_solver.
Qed.

Lemma loadGoogleMapsScript_never_loaded API_KEY st :
  MapVisualization.key_invalid API_KEY = true ->
  never_loaded st ->
  MapVisualization.loadGoogleMapsScript API_KEY st
  = (MapVisualization.RejectedNow MapVisualization.key_error_message,
     MapVisualization.setMapLoadError
       (Some MapVisualization.key_error_message) st).
Proof.
  intros Hkey (_ & Hp & Hmap & _). unfold MapVisualization.loadGoogleMapsScript.
  rewrite Hmap, Hp, Hkey. simpl. by rewrite andb_false_r.
Qed.

Lemma mount_never_loaded center zoom API_KEY st :
  MapVisualization.key_invalid API_KEY = true ->
  never_loaded st ->
  MapVisualization.mapRef_current (MapVisualization.comp st) = false ->
  MapVisualization.mount center zoom API_KEY st
  = {| MapVisualization.page := MapVisualization.page st;
       MapVisualization.comp :=
         {| MapVisualization.inst := S (MapVisualization.inst (MapVisualization.comp st));
            MapVisualization.mapRef_current := true;
            MapVisualization.googleMap := None;
            MapVisualization.markersRef := [];
            MapVisualization.infoWindowRef := None;
            MapVisualization.mapLoadError :=
              Some MapVisualization.key_error_message |} |}.
Proof.
  intros Hkey (Hl & Hp & Hmap & Hc & Hs) Hoff.
  unfold MapVisualization.mount, MapVisualization.mount_effect. rewrite Hoff.
  rewrite loadGoogleMapsScript_never_loaded; [done|done|].
  by split_and!.
Qed.

Lemma step_never_loaded center zoom API_KEY st ev :
  MapVisualization.key_invalid API_KEY = true ->
  never_loaded st ->
  never_loaded (MapVisualization.step center zoom API_KEY st ev).
Proof.
  intros Hkey Hinv. pose proof Hinv as (Hl & Hp & Hmap & Hc & Hs).
  destruct ev as [| |l d|l e|]; simpl.
  - destruct (MapVisualization.mapRef_current (MapVisualization.comp st)) eqn:Hon.
    + unfold MapVisualization.mount. by rewrite Hon.
    + rewrite mount_never_loaded by done. by split_and!.
  - unfold MapVisualization.unmount.
    destruct (MapVisualization.mapRef_current (MapVisualization.comp st)); [|done].
    unfold MapVisualization.cleanup, never_loaded. rewrite Hp.
    destruct (decide _); simpl; [|by split_and!].
    destruct (MapVisualization.originalGmAuthFailure (MapVisualization.page st));
      simpl; by split_and!.
  - by rewrite Hl.
  - unfold MapVisualization.script_onerror. by rewrite Hl.
  - destruct (MapVisualization.gm_authFailure (MapVisualization.page st))
      as [[n|l]|]; try done.
    unfold MapVisualization.auth_failure_handler. by rewrite Hl.
Qed.

Lemma run_never_loaded center zoom API_KEY evs : forall st,
  MapVisualization.key_invalid API_KEY = true ->
  never_loaded st ->
  never_loaded (MapVisualization.run center zoom API_KEY evs st).
Proof.
  induction evs as [|ev evs IH]; intros st Hkey Hinv; [done|].
  simpl. apply IH; [done|]. by apply step_never_loaded.
Qed.

(** C6.  With the mapping credential absent ([undefined] or empty) or equal
    to the placeholder text, in every state the page can reach from its
    start, [loadGoogleMapsScript] sets the error text and returns a
    rejected promise, and changes nothing else: no script element is made
    or put in the document, no load is recorded.  A mount in such a state
    ends with the error on display and the page as it was. *)
Theorem invalid_key_rejects_without_script center zoom API_KEY evs maps_loaded hook :
  API_KEY = None \/ API_KEY = Some "" \/ API_KEY = Some "process.env.API_KEY" ->
  MapVisualization.loadGoogleMapsScript API_KEY
    (MapVisualization.run center zoom API_KEY evs
       (MapVisualization.initial maps_loaded hook))
  = (MapVisualization.RejectedNow MapVisualization.key_error_message,
     MapVisualization.setMapLoadError (Some MapVisualization.key_error_message)
       (MapVisualization.run center zoom API_KEY evs
          (MapVisualization.initial maps_loaded hook)))
  /\ MapVisualization.created_scripts
       (MapVisualization.page
          (MapVisualization.run center zoom API_KEY evs
             (MapVisualization.initial maps_loaded hook))) = 0
  /\ MapVisualization.head_scripts
       (MapVisualization.page
          (MapVisualization.run center zoom API_KEY evs
             (MapVisualization.initial maps_loaded hook))) = []
  /\ MapVisualization.loads
       (MapVisualization.page
          (MapVisualization.run center zoom API_KEY evs
             (MapVisualization.initial maps_loaded hook))) = []
  /\ (MapVisualization.mapRef_current
        (MapVisualization.comp
           (MapVisualization.run center zoom API_KEY evs
              (MapVisualization.initial maps_loaded hook))) = false ->
      MapVisualization.mapLoadError
        (MapVisualization.comp
           (MapVisualization.run center zoom API_KEY
              (evs ++ [MapVisualization.Mount])
              (MapVisualization.initial maps_loaded hook)))
      = Some MapVisualization.key_error_message
      /\ MapVisualization.page
           (MapVisualization.run center zoom API_KEY
              (evs ++ [MapVisualization.Mount])
              (MapVisualization.initial maps_loaded hook))
         = MapVisualization.page
             (MapVisualization.run center zoom API_KEY evs
                (MapVisualization.initial maps_loaded hook))).
Proof.
  intros Hkey%key_invalid_iff.
  assert (never_loaded
            (MapVisualization.run center zoom API_KEY evs
               (MapVisualization.initial maps_loaded hook))) as Hinv.
  { apply run_never_loaded; [done|]. by split_and!. }
  pose proof Hinv as (Hl & Hp & Hmap & Hc & Hs).
  split_and!; try done.
  - by apply loadGoogleMapsScript_never_loaded.
  - intros Hoff. unfold MapVisualization.run. rewrite fold_left_app. simpl.
    fold (MapVisualization.run center zoom API_KEY evs
            (MapVisualization.initial maps_loaded hook)).
    by rewrite mount_never_loaded.
Qed.

Lemma invalid_key_rejects_without_script_witness :
  MapVisualization.loadGoogleMapsScript (Some "process.env.API_KEY")
    (MapVisualization.run sample_center MapVisualization.num_10
       (Some "process.env.API_KEY")
       [MapVisualization.Mount; MapVisualization.Unmount]
       (MapVisualization.initial false None))
  = (MapVisualization.RejectedNow MapVisualization.key_error_message,
     MapVisualization.setMapLoadError (Some MapVisualization.key_error_message)
       (MapVisualization.run sample_center MapVisualization.num_10
          (Some "process.env.API_KEY")
          [MapVisualization.Mount; MapVisualization.Unmount]
          (MapVisualization.initial false None)))
  /\ MapVisualization.created_scripts
       (MapVisualization.page
          (MapVisualization.run sample_center MapVisualization.num_10
             (Some "process.env.API_KEY")
             [MapVisualization.Mount; MapVisualization.Unmount]
             (MapVisualization.initial false None))) = 0.
Proof.
  destruct (invalid_key_rejects_without_script sample_center
              MapVisualization.num_10 (Some "process.env.API_KEY")
              [MapVisualization.Mount; MapVisualization.Unmount] false None
              (or_intror (or_intror eq_refl))) as (H1 & H2 & _).
  exact (conj H1 H2).
Defined.

(** With a usable key the same call makes a script element. *)
Example valid_key_creates_script :
  MapVisualization.created_scripts
    (MapVisualization.page
       (MapVisualization.loadGoogleMapsScript (Some "maps-key")
          (MapVisualization.initial false None)).2)
  = 1.
Proof. reflexivity. Qed.

(** ** The authentication-failure hook *)

(** Starting a load saves the hook found in [window] and installs the
    load's own closure. *)
Lemma load_saves_and_overrides API_KEY st :
  MapVisualization.key_invalid API_KEY = false ->
  MapVisualization.globalGoogleMapsLoadingPromise (MapVisualization.page st) = None ->
  MapVisualization.googleMap (MapVisualization.comp st) = None ->
  MapVisualization.originalGmAuthFailure
    (MapVisualization.page (MapVisualization.loadGoogleMapsScript API_KEY st).2)
  = MapVisualization.gm_authFailure (MapVisualization.page st)
  /\ MapVisualization.gm_authFailure
       (MapVisualization.page (MapVisualization.loadGoogleMapsScript API_KEY st).2)
     = Some (MapVisualization.Override
               (length (MapVisualization.loads (MapVisualization.page st)))).
Proof.
  intros Hkey Hp Hmap. unfold MapVisualization.loadGoogleMapsScript.
  rewrite Hp, Hmap, Hkey. simpl. rewrite andb_false_r.
  by destruct (MapVisualization.head_scripts (MapVisualization.page st)).
Qed.

(** While the load is pending, each way out puts the saved hook back: the
    vendor's authentication failure, a script error, the load event with
    the SDK present, and an unmount. *)
Lemma hook_restored_at_first_exit center zoom hook ev :
  ev = MapVisualization.AuthFailed
  \/ (exists e, ev = MapVisualization.ScriptFailed 0 e)
  \/ ev = MapVisualization.ScriptLoaded 0 true
  \/ ev = MapVisualization.Unmount ->
  MapVisualization.gm_authFailure
    (MapVisualization.page
       (MapVisualization.run center zoom (Some "maps-key")
          [MapVisualization.Mount; ev] (MapVisualization.initial false hook)))
  = hook.
Proof.
  intros [->|[[e ->]|[->| ->]]]; by destruct hook as [[n|[|l]]|].
Qed.

(** C8.  A page where other code has installed a hook [Foreign n] mounts
    the map with a usable key: the hook is saved and overridden.  The
    script loads with the SDK present: the hook is back in [window] and
    the saved copy is cleared.  The map is then unmounted: the cleanup
    finds [window.gm_authFailure] different from the cleared copy and
    deletes it.  The hook of the other code is gone for good. *)
Theorem unmount_after_load_deletes_hook center zoom n :
  MapVisualization.gm_authFailure
    (MapVisualization.page
       (MapVisualization.run center zoom (Some "maps-key")
          [MapVisualization.Mount]
          (MapVisualization.initial false (Some (MapVisualization.Foreign n)))))
  = Some (MapVisualization.Override 0)
  /\ MapVisualization.originalGmAuthFailure
       (MapVisualization.page
          (MapVisualization.run center zoom (Some "maps-key")
             [MapVisualization.Mount]
             (MapVisualization.initial false (Some (MapVisualization.Foreign n)))))
     = Some (MapVisualization.Foreign n)
  /\ MapVisualization.gm_authFailure
       (MapVisualization.page
          (MapVisualization.run center zoom (Some "maps-key")
             [MapVisualization.Mount; MapVisualization.ScriptLoaded 0 true]
             (MapVisualization.initial false (Some (MapVisualization.Foreign n)))))
     = Some (MapVisualization.Foreign n)
  /\ MapVisualization.originalGmAuthFailure
       (MapVisualization.page
          (MapVisualization.run center zoom (Some "maps-key")
             [MapVisualization.Mount; MapVisualization.ScriptLoaded 0 true]
             (MapVisualization.initial false (Some (MapVisualization.Foreign n)))))
     = None
  /\ MapVisualization.gm_authFailure
       (MapVisualization.page
          (MapVisualization.run center zoom (Some "maps-key")
             [MapVisualization.Mount; MapVisualization.ScriptLoaded 0 true;
              MapVisualization.Unmount]
             (MapVisualization.initial false (Some (MapVisualization.Foreign n)))))
     = None
  /\ MapVisualization.originalGmAuthFailure
       (MapVisualization.page
          (MapVisualization.run center zoom (Some "maps-key")
             [MapVisualization.Mount; MapVisualization.ScriptLoaded 0 true;
              MapVisualization.Unmount]
             (MapVisualization.initial false (Some (MapVisualization.Foreign n)))))
     = None.
Proof. split_and!; reflexivity. Qed.

(** The same loss after the two failures that restore the hook at once. *)
Example unmount_after_failure_deletes_hook :
  MapVisualization.gm_authFailure
    (MapVisualization.page
       (MapVisualization.run sample_center MapVisualization.num_10
          (Some "maps-key")
          [MapVisualization.Mount; MapVisualization.AuthFailed;
           MapVisualization.Unmount]
          (MapVisualization.initial false (Some (MapVisualization.Foreign 7)))))
  = None
  /\ MapVisualization.gm_authFailure
       (MapVisualization.page
          (MapVisualization.run sample_center MapVisualization.num_10
             (Some "maps-key")
             [MapVisualization.Mount;
              MapVisualization.ScriptFailed 0 MapVisualization.ErrOther;
              MapVisualization.Unmount]
             (MapVisualization.initial false (Some (MapVisualization.Foreign 7)))))
     = None.
Proof. split; reflexivity. Qed.

(** The load event with the SDK missing clears the saved copy and leaves
    the closure of the load in [window]. *)
Example load_without_sdk_keeps_override :
  MapVisualization.gm_authFailure
    (MapVisualization.page
       (MapVisualization.run sample_center MapVisualization.num_10
          (Some "maps-key")
          [MapVisualization.Mount; MapVisualization.ScriptLoaded 0 false]
          (MapVisualization.initial false (Some (MapVisualization.Foreign 7)))))
  = Some (MapVisualization.Override 0)
  /\ MapVisualization.originalGmAuthFailure
       (MapVisualization.page
          (MapVisualization.run sample_center MapVisualization.num_10
             (Some "maps-key")
             [MapVisualization.Mount; MapVisualization.ScriptLoaded 0 false]
             (MapVisualization.initial false (Some (MapVisualization.Foreign 7)))))
     = None.
Proof. split; reflexivity. Qed.

(** A load event that arrives after the unmount deletes the hook the
    unmount had put back. *)
Example late_load_event_deletes_hook :
  MapVisualization.gm_authFailure
    (MapVisualization.page
       (MapVisualization.run sample_center MapVisualization.num_10
          (Some "maps-key")
          [MapVisualization.Mount; MapVisualization.Unmount;
           MapVisualization.ScriptLoaded 0 true]
          (MapVisualization.initial false (Some (MapVisualization.Foreign 7)))))
  = None.
Proof. reflexivity. Qed.

(** * Further properties *)

(** ** The streamed text *)

Lemma string_app_nil_r (s : string) : s +:+ "" = s.
Proof.
  induction s as [|a s IH]; [done|].
  change (String a (s +:+ "") = String a s). by rewrite IH.
Qed.

Lemma string_app_assoc (s1 s2 s3 : string) :
  (s1 +:+ s2) +:+ s3 = s1 +:+ (s2 +:+ s3).
Proof.
  induction s1 as [|a s1 IH]; [done|].
  change (String a ((s1 +:+ s2) +:+ s3) = String a (s1 +:+ (s2 +:+ s3))).
  by rewrite IH.
Qed.

Lemma on_chunk_text l chunk :
  Chatbot.fullResponseText (Chatbot.on_chunk l chunk)
  = Chatbot.fullResponseText l +:+ chunk_text chunk.
Proof.
  unfold Chatbot.on_chunk, chunk_text. simpl.
  destruct (Chatbot.text chunk) as [[|a t]|]; simpl;
    by rewrite ?string_app_nil_r.
Qed.

Lemma fold_on_chunk_text chunks : forall l,
  Chatbot.fullResponseText (fold_left Chatbot.on_chunk chunks l)
  = Chatbot.fullResponseText l +:+ stream_text chunks.
Proof.
  induction chunks as [|chunk chunks IH]; intros l; simpl.
  - by rewrite string_app_nil_r.
  - by rewrite IH, on_chunk_text, string_app_assoc.
Qed.

(** After at least one chunk the placeholder holds the running totals. *)
Lemma fold_on_chunk_last base chunks : forall l m,
  chunks <> [] ->
  Chatbot.messages (Chatbot.loop_state l) = base ++ [m] ->
  Types.role m = Types.model ->
  Chatbot.loop_state (fold_left Chatbot.on_chunk chunks l)
  = {| Chatbot.messages :=
         base ++ [ {| Types.role := Types.model;
                      Types.parts :=
                        Types.PString
                          (Chatbot.fullResponseText
                             (fold_left Chatbot.on_chunk chunks l));
                      Types.timestamp := Types.timestamp m;
                      Types.groundingUris :=
                        Some (Chatbot.allGroundingUris
                                (fold_left Chatbot.on_chunk chunks l)) |} ];
       Chatbot.inputMessage := Chatbot.inputMessage (Chatbot.loop_state l);
       Chatbot.loading := Chatbot.loading (Chatbot.loop_state l);
       Chatbot.chatRef := Chatbot.chatRef (Chatbot.loop_state l) |}.
Proof.
  destruct chunks as [|chunk chunks _] using rev_ind; intros l m Hne Hm Hrole;
    [done|].
  destruct (fold_on_chunk_state base chunks l m Hm Hrole)
    as (m1 & Hst & Hr1 & Ht1 & _).
  rewrite fold_left_app. cbn [fold_left].
  rewrite (on_chunk_state base m1); [|by rewrite Hst|done].
  rewrite Hst, Ht1. reflexivity.
Qed.

(** X1.  A send that goes through and whose stream ends normally leaves
    the old messages, the user message and the assistant message; with at
    least one chunk the assistant message holds the texts of the chunks
    joined in order, the time of the placeholder and the citation list;
    with no chunk it is still the placeholder ["..."].  The input is
    cleared, [loading] is off, the session is kept and one request was
    sent. *)
Theorem successful_send_final_state
    trim p provider t_user t_placeholder t_error st :
  Chatbot.send_blocked trim st = false ->
  Chatbot.stream_fails (provider (request_of p st)) = false ->
  Chatbot.handleSendMessage trim p provider t_user t_placeholder t_error st
  = ({| Chatbot.messages :=
          Chatbot.messages st
          ++ [Chatbot.user_message (Chatbot.inputMessage st) t_user;
              match Chatbot.stream_chunks (provider (request_of p st)) with
              | [] => Chatbot.model_message "..." t_placeholder
              | _ =>
                  {| Types.role := Types.model;
                     Types.parts :=
                       Types.PString
                         (stream_text
                            (Chatbot.stream_chunks (provider (request_of p st))));
                     Types.timestamp := t_placeholder;
                     Types.groundingUris :=
                       Some (dedup_first
                               (flat_map Chatbot.extractGroundingUris
                                  (Chatbot.stream_chunks
                                     (provider (request_of p st))))) |}
              end];
        Chatbot.inputMessage := "";
        Chatbot.loading := false;
        Chatbot.chatRef := Chatbot.chatRef st |},
     [request_of p st]).
Proof.
  intros Hb Hok. rewrite handleSendMessage_unblocked, Hok by done.
  destruct (Chatbot.stream_chunks (provider (request_of p st)))
    as [|chunk chunks] eqn:E.
  - unfold submitted, Chatbot.setLoading. simpl. done.
  - unfold Chatbot.run_stream.
    rewrite (fold_on_chunk_last
               (Chatbot.messages st
                ++ [Chatbot.user_message (Chatbot.inputMessage st) t_user])
               (chunk :: chunks) _ (Chatbot.model_message "..." t_placeholder));
      [|done|by simpl; rewrite <- app_assoc|done].
    rewrite fold_on_chunk_text, fold_on_chunk_uris by done.
    unfold Chatbot.setLoading. simpl. by rewrite <- app_assoc.
Qed.

Lemma successful_send_final_state_witness :
  Chatbot.handleSendMessage sample_trim
    {| Chatbot.stores := [jakarta]; Chatbot.selectedStore := None;
       Chatbot.userLocation := None |}
    sample_provider 1%Z 2%Z 3%Z sample_chat
  = ({| Chatbot.messages :=
          [Chatbot.user_message "Which store sells most?" 1%Z;
           {| Types.role := Types.model;
              Types.parts := Types.PString "text text ";
              Types.timestamp := 2%Z;
              Types.groundingUris :=
                Some ["https://a.example/x"; "https://maps.example/1";
                      "https://b.example/y"] |}];
        Chatbot.inputMessage := "";
        Chatbot.loading := false;
        Chatbot.chatRef := Chatbot.chatRef sample_chat |},
     [ {| Chatbot.message := "Which store sells most?";
          Chatbot.config := {| Chatbot.toolConfig := None |} |} ]).
Proof.
  apply (successful_send_final_state sample_trim
           {| Chatbot.stores := [jakarta]; Chatbot.selectedStore := None;
              Chatbot.userLocation := None |}
           sample_provider 1%Z 2%Z 3%Z sample_chat); reflexivity.
Defined.

(** ** The citation list while the stream runs *)

Lemma dedup_first_app l k :
  dedup_first (l ++ k)
  = dedup_first l ++ dedup_first (filter (fun x => x ∉ dedup_first l) k).
Proof.
  rewrite <- (Set_spread_dedup_first (l ++ k)), Set_spread_app, fold_Set_add.
  by rewrite Set_spread_dedup_first.
Qed.

Lemma elem_of_flat_map {A B} (f : A -> list B) (l : list A) (y : B) :
  y ∈ flat_map f l <-> exists x, x ∈ l /\ y ∈ f x.
Proof.
  rewrite list_elem_of_In, in_flat_map.
  split; intros (x & Hx & Hy); exists x; by rewrite ?list_elem_of_In in *.
Qed.

(** X2.  The citation list the loop holds never repeats a URI, holds
    exactly the URIs extracted from the chunks seen so far, and only grows
    at its end as further chunks arrive: what was listed stays listed, in
    the same place. *)
Theorem citations_only_grow chunks more st :
  NoDup (Chatbot.allGroundingUris (Chatbot.run_stream chunks st))
  /\ (forall u,
        u ∈ Chatbot.allGroundingUris (Chatbot.run_stream chunks st)
        <-> exists chunk, chunk ∈ chunks /\ u ∈ Chatbot.extractGroundingUris chunk)
  /\ Chatbot.allGroundingUris (Chatbot.run_stream chunks st)
     `prefix_of` Chatbot.allGroundingUris (Chatbot.run_stream (chunks ++ more) st).
Proof.
  rewrite !run_stream_uris. split_and!.
  - apply dedup_first_NoDup.
  - intros u. by rewrite dedup_first_elem_of, elem_of_flat_map.
  - rewrite flat_map_app, dedup_first_app. by eexists.
Qed.

(** ** What [extractGroundingUris] returns *)

Lemma present_nonempty o u : u ∈ present o -> u <> "".
Proof.
  unfold present. destruct o as [[|a s]|]; simpl;
    rewrite ?list_elem_of_singleton; try by intros ?%elem_of_nil.
  by intros ->.
Qed.

Lemma chunk_uris_nonempty chunk u : u ∈ chunk_uris chunk -> u <> "".
Proof.
  unfold chunk_uris. rewrite !elem_of_app.
  intros [H|[H|H]].
  - destruct (Chatbot.web chunk); [by eapply present_nonempty|by apply elem_of_nil in H].
  - destruct (Chatbot.maps chunk); [by eapply present_nonempty|by apply elem_of_nil in H].
  - destruct (Chatbot.maps chunk) as [m|]; [|by apply elem_of_nil in H].
    destruct (Chatbot.placeAnswerSources m) as [srcs|]; [|by apply elem_of_nil in H].
    apply elem_of_flat_map in H as (src & _ & H). unfold source_uris in H.
    destruct (Chatbot.reviewSnippets src) as [sns|]; [|by apply elem_of_nil in H].
    apply elem_of_flat_map in H as (sn & _ & H). by eapply present_nonempty.
Qed.

(** X3.  [extractGroundingUris] never returns the empty string, and every
    URI it returns is a URI of one of the grounding chunks of the first
    candidate; so a response without candidates, without grounding
    metadata or without grounding chunks gives no URI. *)
Theorem extracted_uris_nonempty_from_first_candidate response u :
  u ∈ Chatbot.extractGroundingUris response ->
  u <> ""
  /\ exists chunk,
       chunk ∈ first_candidate_chunks response /\ u ∈ chunk_uris chunk.
Proof.
  rewrite extractGroundingUris_flat_map, elem_of_flat_map.
  intros (chunk & Hc & Hu). split; [by eapply chunk_uris_nonempty|by exists chunk].
Qed.

Lemma extracted_uris_nonempty_from_first_candidate_witness :
  "https://maps.example/1" <> ""
  /\ exists chunk,
       chunk ∈ first_candidate_chunks
                 (uri_chunk "https://a.example/x" "https://maps.example/1")
       /\ "https://maps.example/1" ∈ chunk_uris chunk.
Proof.
  apply (extracted_uris_nonempty_from_first_candidate
           (uri_chunk "https://a.example/x" "https://maps.example/1")).
  vm_compute. right. left.
Defined.

(** A chunk whose only URI is the empty string gives nothing. *)
Example empty_uri_dropped :
  Chatbot.extractGroundingUris (uri_chunk "" "") = [].
Proof. reflexivity. Qed.

(** ** The mount effect of the chat panel *)


(** ** A conversation *)






(** A conversation of two questions, the second answered by a failure. *)
Example two_turn_conversation :
  Types.role
    <$> Chatbot.messages
          (chat_run sample_trim
             [ClickSend (chat_props App.initial) sample_provider 1%Z 2%Z 3%Z;
              PressKey "a" (chat_props App.initial) sample_provider 4%Z 5%Z 6%Z;
              TypeText "And the least?";
              PressKey "Enter" (chat_props App.initial) failing_provider
                7%Z 8%Z 9%Z]
             sample_chat).1
  = [Types.user; Types.model; Types.user; Types.model].
Proof. reflexivity. Qed.

(** ** Pressing the upload button *)

(** X6.  A press of the upload button keeps the file name.  Afterwards no
    error is shown exactly when a file was there, was read and decoded,
    and the shell received its stores; when an error is shown it is one
    of three fixed texts and the shell is as it was.  Unless no file was
    there, [loading] ends off; choosing a file afterwards clears the
    error and enables the button. *)
Theorem upload_succeeds_or_reports parseFloat sheet_to_json file fu app :
  FileUpload.fileName (App.upload parseFloat sheet_to_json file fu app).1
  = FileUpload.fileName fu
  /\ (FileUpload.error (App.upload parseFloat sheet_to_json file fu app).1 = None
      <-> exists f data,
            file = Some f
            /\ FileUpload.parseExcelFile parseFloat sheet_to_json f = Resolved data
            /\ (App.upload parseFloat sheet_to_json file fu app).2
               = App.handleDataUpload data app)
  /\ (forall e,
        FileUpload.error (App.upload parseFloat sheet_to_json file fu app).1
        = Some e ->
        (App.upload parseFloat sheet_to_json file fu app).2 = app
        /\ e ∈ ["Please select an Excel file to upload.";
                FileUpload.read_error_message;
                FileUpload.parse_error_message])
  /\ (forall f,
        file = Some f ->
        FileUpload.loading (App.upload parseFloat sheet_to_json file fu app).1
        = false
        /\ forall a name,
             FileUpload.upload_disabled
               (FileUpload.handleFileChange (Some (String a name))
                  (App.upload parseFloat sheet_to_json file fu app).1) = false
             /\ FileUpload.error
                  (FileUpload.handleFileChange (Some (String a name))
                     (App.upload parseFloat sheet_to_json file fu app).1) = None).
Proof.
  unfold App.upload, FileUpload.handleUpload.
  destruct file as [f|]; simpl.
  - destruct (FileUpload.parseExcelFile parseFloat sheet_to_json f)
      as [data|reason] eqn:Hparse; simpl; split_and!; try done.
    + split; [intros _; by exists f, data|done].
    + split; [done|]. intros (g & data & [= <-] & Hg & _). congruence.
    + intros e [= <-]. split; [done|].
      unfold FileUpload.parseExcelFile in Hparse.
      destruct f as [bytes|].
      * destruct (sheet_to_json bytes); [done|]. injection Hparse as <-.
        right. right. left.
      * injection Hparse as <-. right. left.
  - split_and!; try done.
    + split; [done|]. by intros (f & data & ? & _).
    + intros e [= <-]. split; [done|left].
Qed.

(** ** The shell's selection and position *)

Lemma app_step_selection st a :
  (forall s, App.selectedStore st = Some s -> s ∈ App.stores st) ->
  match a with
  | StoreSelect (Some s) => s ∈ App.stores st
  | _ => True
  end ->
  forall s,
    App.selectedStore (app_step st a) = Some s -> s ∈ App.stores (app_step st a).
Proof.
  intros Hinv Ha s. destruct a as [data|[s'|]| |c|]; simpl; try done.
  - by intros [= <-].
  - apply Hinv.
  - apply Hinv.
Qed.

(** X7.  If the selection is a store of the list, and every later
    selection is of a store of the list held at that moment, then after
    any uploads, selections, clearings and position results the selection
    is still none or a store of the current list: an upload never leaves
    a store of the old list selected. *)
Theorem selection_stays_in_stores actions : forall st,
  (forall s, App.selectedStore st = Some s -> s ∈ App.stores st) ->
  selects_current st actions ->
  forall s,
    App.selectedStore (app_run actions st) = Some s ->
    s ∈ App.stores (app_run actions st).
Proof.
  induction actions as [|a actions IH]; intros st Hinv Hsel; simpl; [done|].
  destruct Hsel as [Ha Hrest]. apply IH; [|done].
  by apply app_step_selection.
Qed.

Lemma selection_stays_in_stores_witness :
  jakarta_twin
  ∈ App.stores
      (app_run [DataUpload [jakarta; jakarta_twin];
                StoreSelect (Some jakarta_twin);
                GeolocationSuccess sample_position] App.initial).
Proof.
  apply (selection_stays_in_stores
           [DataUpload [jakarta; jakarta_twin];
            StoreSelect (Some jakarta_twin);
            GeolocationSuccess sample_position] App.initial).
  - simpl. discriminate.
  - simpl. split_and!; try exact I. right. left.
  - reflexivity.
Defined.





(** Before any answer the effect does ask, where the browser can. *)
Example geolocation_asked_at_first :
  App.geolocation_effect true App.initial = true
  /\ App.geolocation_effect false App.initial = false.
Proof. split; reflexivity. Qed.

(** ** The page while the map comes and goes *)

Lemma promise_alter f l (loads : list MapVisualization.Load) :
  (forall L, MapVisualization.promise (f L) = MapVisualization.promise L) ->
  MapVisualization.promise <$> alter f l loads
  = MapVisualization.promise <$> loads.
Proof.
  intros Hf. rewrite (list_fmap_alter _ _ id).
  - by apply list_alter_id.
  - apply Forall_forall. intros L _. apply Hf.
Qed.

(** The invariants read only part of the state. *)
Lemma page_consistent_frame st st' :
  MapVisualization.head_scripts (MapVisualization.page st')
  = MapVisualization.head_scripts (MapVisualization.page st) ->
  MapVisualization.created_scripts (MapVisualization.page st')
  = MapVisualization.created_scripts (MapVisualization.page st) ->
  MapVisualization.promise <$> MapVisualization.loads (MapVisualization.page st')
  = MapVisualization.promise <$> MapVisualization.loads (MapVisualization.page st) ->
  MapVisualization.globalGoogleMapsLoadingPromise (MapVisualization.page st')
  = MapVisualization.globalGoogleMapsLoadingPromise (MapVisualization.page st) ->
  MapVisualization.google_maps (MapVisualization.page st')
  = MapVisualization.google_maps (MapVisualization.page st) ->
  MapVisualization.googleMap (MapVisualization.comp st')
  = MapVisualization.googleMap (MapVisualization.comp st) ->
  MapVisualization.mapRef_current (MapVisualization.comp st')
  = MapVisualization.mapRef_current (MapVisualization.comp st) ->
  MapVisualization.infoWindowRef (MapVisualization.comp st')
  = MapVisualization.infoWindowRef (MapVisualization.comp st) ->
  page_consistent st -> page_consistent st'.
Proof.
  intros Hs Hc Hl Hg Hm Hmap Hr Hw (HA & HB & HC & HD).
  assert (length (MapVisualization.loads (MapVisualization.page st'))
          = length (MapVisualization.loads (MapVisualization.page st))) as Hlen.
  { by rewrite <- (length_fmap MapVisualization.promise), Hl, length_fmap. }
  unfold page_consistent. rewrite Hs, Hc, Hg, Hm, Hmap, Hr, Hw, Hlen.
  split_and!; try done.
  intros l Hl'. destruct (HC l Hl') as [? Hp]. split; [done|].
  by rewrite <- list_lookup_fmap, Hl, list_lookup_fmap.
Qed.

Lemma setMapLoadError_of_consistent i e st :
  page_consistent st -> page_consistent (MapVisualization.setMapLoadError_of i e st).
Proof.
  apply page_consistent_frame; unfold MapVisualization.setMapLoadError_of;
    by destruct (_ && _).
Qed.

Lemma update_load_consistent l f st :
  (forall L, MapVisualization.promise (f L) = MapVisualization.promise L) ->
  page_consistent st -> page_consistent (MapVisualization.update_load l f st).
Proof.
  intros Hf. apply page_consistent_frame; try done.
  simpl. by apply promise_alter.
Qed.

Lemma initMap_consistent center zoom st :
  page_consistent st -> page_consistent (MapVisualization.initMap center zoom st).
Proof.
  intros H. pose proof H as (HA & HB & HC & HD).
  unfold MapVisualization.initMap.
  destruct (MapVisualization.mapRef_current (MapVisualization.comp st)) eqn:Hr;
    [|done].
  destruct (MapVisualization.google_maps (MapVisualization.page st)) eqn:Hm;
    [|done].
  destruct (bool_decide _); simpl; [done|].
  split_and!; try done; intros gm _; simpl; by rewrite ?Hr, ?Hm.
Qed.

Lemma initMap_of_consistent center zoom i st :
  page_consistent st ->
  page_consistent (MapVisualization.initMap_of center zoom i st).
Proof.
  intros H. unfold MapVisualization.initMap_of.
  destruct (_ && _); [by apply initMap_consistent|done].
Qed.

Lemma fold_initMap_of_consistent center zoom ws : forall st,
  page_consistent st ->
  page_consistent
    (fold_left (fun s w => MapVisualization.initMap_of center zoom w s) ws st).
Proof.
  induction ws as [|w ws IH]; intros st H; simpl; [done|].
  by apply IH, initMap_of_consistent.
Qed.

Lemma settle_consistent center zoom l outcome st :
  page_consistent st ->
  page_consistent (MapVisualization.settle center zoom l outcome st).
Proof.
  intros H. pose proof H as (HA & HB & HC & HD).
  unfold MapVisualization.settle.
  destruct (MapVisualization.loads (MapVisualization.page st) !! l)
    as [L|] eqn:HL; [|done].
  destruct (MapVisualization.promise L); try done.
  assert (page_consistent
            (MapVisualization.set_page
               (MapVisualization.set_globalPromise None
                  (MapVisualization.page
                     (MapVisualization.update_load l
                        (fun L0 =>
                           {| MapVisualization.load_instance :=
                                MapVisualization.load_instance L0;
                              MapVisualization.isAuthFailureTriggered :=
                                MapVisualization.isAuthFailureTriggered L0;
                              MapVisualization.promise := outcome;
                              MapVisualization.waiters :=
                                MapVisualization.waiters L0 |}) st)))
               (MapVisualization.update_load l
                  (fun L0 =>
                     {| MapVisualization.load_instance :=
                          MapVisualization.load_instance L0;
                        MapVisualization.isAuthFailureTriggered :=
                          MapVisualization.isAuthFailureTriggered L0;
                        MapVisualization.promise := outcome;
                        MapVisualization.waiters :=
                          MapVisualization.waiters L0 |}) st))) as H2.
  { unfold page_consistent. simpl. rewrite length_alter. by split_and!. }
  destruct outcome; try done. by apply fold_initMap_of_consistent.
Qed.

Lemma loadGoogleMapsScript_consistent API_KEY st :
  page_consistent st ->
  page_consistent (MapVisualization.loadGoogleMapsScript API_KEY st).2.
Proof.
  intros H. pose proof H as (HA & HB & HC & HD).
  unfold MapVisualization.loadGoogleMapsScript.
  destruct (_ && _); [done|].
  destruct (MapVisualization.globalGoogleMapsLoadingPromise
              (MapVisualization.page st)) as [l|] eqn:Hg; [done|].
  destruct (MapVisualization.key_invalid API_KEY).
  { simpl. revert H. by apply page_consistent_frame. }
  simpl. unfold page_consistent.
  destruct (MapVisualization.head_scripts (MapVisualization.page st))
    as [|s0 [|s1 rest]] eqn:Hs; simpl in *; rewrite ?Hs; simpl; try lia.
  - rewrite length_app. simpl. split_and!; try lia; try done.
    intros l [= <-]. split; [lia|].
    by rewrite list_lookup_middle.
  - rewrite length_app. simpl. split_and!; try lia; try done.
    intros l [= <-]. split; [lia|].
    by rewrite list_lookup_middle.
Qed.

Lemma add_waiter_consistent l i st :
  page_consistent st -> page_consistent (MapVisualization.add_waiter l i st).
Proof. by apply update_load_consistent. Qed.

Lemma mount_consistent center zoom API_KEY st :
  page_consistent st ->
  page_consistent (MapVisualization.mount center zoom API_KEY st).
Proof.
  intros H. unfold MapVisualization.mount.
  destruct (MapVisualization.mapRef_current (MapVisualization.comp st)); [done|].
  unfold MapVisualization.mount_effect.
  pose proof (loadGoogleMapsScript_consistent API_KEY
                (MapVisualization.setMapLoadError None
                   (MapVisualization.set_comp
                      {| MapVisualization.inst :=
                           S (MapVisualization.inst (MapVisualization.comp st));
                         MapVisualization.mapRef_current := true;
                         MapVisualization.googleMap := None;
                         MapVisualization.markersRef := [];
                         MapVisualization.infoWindowRef := None;
                         MapVisualization.mapLoadError := None |} st))) as Hload.
  destruct (MapVisualization.loadGoogleMapsScript _ _) as [[|l|reason|l] st1];
    simpl in Hload.
  - apply initMap_consistent, Hload.
    destruct H as (HA & HB & HC & HD). by split_and!.
  - apply add_waiter_consistent, Hload.
    destruct H as (HA & HB & HC & HD). by split_and!.
  - apply Hload. destruct H as (HA & HB & HC & HD). by split_and!.
  - apply add_waiter_consistent, Hload.
    destruct H as (HA & HB & HC & HD). by split_and!.
Qed.

Lemma unmount_consistent st :
  page_consistent st -> page_consistent (MapVisualization.unmount st).
Proof.
  intros H. pose proof H as (HA & HB & HC & HD).
  unfold MapVisualization.unmount.
  destruct (MapVisualization.mapRef_current (MapVisualization.comp st));
    [|done].
  unfold MapVisualization.cleanup, page_consistent.
  destruct (MapVisualization.globalGoogleMapsLoadingPromise
              (MapVisualization.page st)) eqn:Hg; simpl;
    destruct (decide _); simpl;
    try destruct (MapVisualization.originalGmAuthFailure
                    (MapVisualization.page st)); simpl; rewrite ?Hg;
    by split_and!.
Qed.

(** Putting a hook back and clearing the saved copy touches nothing the
    invariants read. *)
Lemma restore_consistent (f : MapVisualization.Page -> MapVisualization.Page) st :
  (forall pg,
     MapVisualization.head_scripts (f pg) = MapVisualization.head_scripts pg
     /\ MapVisualization.created_scripts (f pg) = MapVisualization.created_scripts pg
     /\ MapVisualization.loads (f pg) = MapVisualization.loads pg
     /\ MapVisualization.globalGoogleMapsLoadingPromise (f pg)
        = MapVisualization.globalGoogleMapsLoadingPromise pg
     /\ MapVisualization.google_maps (f pg) = MapVisualization.google_maps pg) ->
  page_consistent st ->
  page_consistent (MapVisualization.set_page (f (MapVisualization.page st)) st).
Proof.
  intros Hf. destruct (Hf (MapVisualization.page st)) as (? & ? & Hl & ? & ?).
  apply page_consistent_frame; simpl; try done. by rewrite Hl.
Qed.

Lemma auth_failure_handler_consistent center zoom l st :
  page_consistent st ->
  page_consistent (MapVisualization.auth_failure_handler center zoom l st).
Proof.
  intros H. unfold MapVisualization.auth_failure_handler.
  destruct (MapVisualization.loads (MapVisualization.page st) !! l)
    as [L|]; [|done].
  destruct (MapVisualization.isAuthFailureTriggered L); [done|].
  apply settle_consistent.
  apply (restore_consistent
           (fun pg =>
              MapVisualization.set_original None
                match MapVisualization.originalGmAuthFailure pg with
                | Some h => MapVisualization.set_gm_authFailure (Some h) pg
                | None => MapVisualization.set_gm_authFailure None pg
                end)).
  { intros pg. by destruct (MapVisualization.originalGmAuthFailure pg). }
  by apply setMapLoadError_of_consistent, update_load_consistent.
Qed.

Lemma script_onerror_consistent center zoom l e st :
  page_consistent st ->
  page_consistent (MapVisualization.script_onerror center zoom l e st).
Proof.
  intros H. unfold MapVisualization.script_onerror.
  destruct (MapVisualization.loads (MapVisualization.page st) !! l)
    as [L|]; [|done].
  destruct (MapVisualization.isAuthFailureTriggered L); [done|].
  apply settle_consistent.
  apply (restore_consistent
           (fun pg =>
              MapVisualization.set_original None
                match MapVisualization.originalGmAuthFailure pg with
                | Some h => MapVisualization.set_gm_authFailure (Some h) pg
                | None => MapVisualization.set_gm_authFailure None pg
                end)).
  { intros pg. by destruct (MapVisualization.originalGmAuthFailure pg). }
  by apply setMapLoadError_of_consistent.
Qed.

Lemma script_onload_consistent center zoom l st :
  page_consistent st ->
  page_consistent (MapVisualization.script_onload center zoom l st).
Proof.
  intros H. unfold MapVisualization.script_onload.
  destruct (MapVisualization.loads (MapVisualization.page st) !! l)
    as [L|]; [|done].
  destruct (MapVisualization.isAuthFailureTriggered L); [done|].
  apply settle_consistent.
  destruct (MapVisualization.google_maps (MapVisualization.page st)).
  - apply (restore_consistent
             (fun pg =>
                MapVisualization.set_original None
                  match MapVisualization.originalGmAuthFailure pg with
                  | Some h => MapVisualization.set_gm_authFailure (Some h) pg
                  | None => MapVisualization.set_gm_authFailure None pg
                  end)); [|done].
    intros pg. by destruct (MapVisualization.originalGmAuthFailure pg).
  - apply (restore_consistent
             (fun pg =>
                MapVisualization.set_original None
                  match MapVisualization.originalGmAuthFailure pg with
                  | Some h => pg
                  | None => pg
                  end)).
    + intros pg. by destruct (MapVisualization.originalGmAuthFailure pg).
    + by apply setMapLoadError_of_consistent.
Qed.

Lemma step_consistent center zoom API_KEY st ev :
  page_consistent st ->
  page_consistent (MapVisualization.step center zoom API_KEY st ev).
Proof.
  intros H. destruct ev as [| |l d|l e|]; simpl.
  - by apply mount_consistent.
  - by apply unmount_consistent.
  - destruct (MapVisualization.loads (MapVisualization.page st) !! l); [|done].
    apply script_onload_consistent. destruct d; [|done].
    destruct H as (HA & HB & HC & HD). split_and!; try done.
    intros gm Hgm. destruct (HD gm Hgm) as (? & ? & ?). by split_and!.
  - by apply script_onerror_consistent.
  - destruct (MapVisualization.gm_authFailure (MapVisualization.page st))
      as [[n|l]|]; try done.
    by apply auth_failure_handler_consistent.
Qed.

(** X9.  Whatever the key and whatever happens to the page (mounts,
    unmounts, load events, script errors, authentication failures, in any
    order), from the start of the page on: the document holds at most one
    script element of the loader; one element was made per load started;
    the shared promise variable, when set, names the newest load and that
    load is still pending; and a map exists only while the component is
    mounted with the SDK present, and then the info overlay exists too. *)
Theorem page_stays_consistent center zoom API_KEY evs maps_loaded hook :
  page_consistent
    (MapVisualization.run center zoom API_KEY evs
       (MapVisualization.initial maps_loaded hook)).
Proof.
  assert (forall st,
            page_consistent st ->
            page_consistent (MapVisualization.run center zoom API_KEY evs st))
    as Hrun.
  { induction evs as [|ev evs IH]; intros st H; simpl; [done|].
    by apply IH, step_consistent. }
  apply Hrun. unfold page_consistent. simpl. split_and!; try done; lia.
Qed.

(** Two mounts with an unmount between them start two loads; the document
    still holds one script element. *)
Example remount_replaces_script :
  length
    (MapVisualization.head_scripts
       (MapVisualization.page
          (MapVisualization.run sample_center MapVisualization.num_10
             (Some "maps-key")
             [MapVisualization.Mount; MapVisualization.Unmount;
              MapVisualization.Mount]
             (MapVisualization.initial false None)))) = 1
  /\ MapVisualization.created_scripts
       (MapVisualization.page
          (MapVisualization.run sample_center MapVisualization.num_10
             (Some "maps-key")
             [MapVisualization.Mount; MapVisualization.Unmount;
              MapVisualization.Mount]
             (MapVisualization.initial false None))) = 2.
Proof. split; reflexivity. Qed.

(** ** How the first load ends *)

Lemma mount_valid_key center zoom key maps_loaded hook :
  MapVisualization.key_invalid (Some key) = false ->
  MapVisualization.mount center zoom (Some key)
    (MapVisualization.initial maps_loaded hook)
  = {| MapVisualization.page :=
         {| MapVisualization.google_maps := maps_loaded;
            MapVisualization.gm_authFailure := Some (MapVisualization.Override 0);
            MapVisualization.head_scripts :=
              [ {| MapVisualization.src_key := key;
                   MapVisualization.script_load := 0 |} ];
            MapVisualization.created_scripts := 1;
            MapVisualization.globalGoogleMapsLoadingPromise := Some 0;
            MapVisualization.originalGmAuthFailure := hook;
            MapVisualization.loads :=
              [ {| MapVisualization.load_instance := 1;
                   MapVisualization.isAuthFailureTriggered := false;
                   MapVisualization.promise := MapVisualization.Pending;
                   MapVisualization.waiters := [1] |} ] |};
       MapVisualization.comp :=
         {| MapVisualization.inst := 1;
            MapVisualization.mapRef_current := true;
            MapVisualization.googleMap := None;
            MapVisualization.markersRef := [];
            MapVisualization.infoWindowRef := None;
            MapVisualization.mapLoadError := None |} |}.
Proof.
  intros Hkey.
  unfold MapVisualization.mount, MapVisualization.mount_effect,
    MapVisualization.loadGoogleMapsScript.
  simpl. rewrite Hkey. by destruct maps_loaded.
Qed.

Lemma run_mount_first center zoom API_KEY evs st :
  MapVisualization.run center zoom API_KEY (MapVisualization.Mount :: evs) st
  = MapVisualization.run center zoom API_KEY evs
      (MapVisualization.mount center zoom API_KEY st).
Proof. reflexivity. Qed.

(** X10.  With a usable key, the first mount puts one script element in
    the document, carrying the key, and shows no error.  If the script
    then loads and the SDK is there, the map is built with the default
    centre and zoom, the overlay is made and no error is shown; if the
    SDK is not there, or the script fails, or the vendor reports an
    authentication failure, no map is built and the matching error text
    is shown.  In each case the shared promise variable is cleared. *)
Theorem first_load_outcomes center zoom key maps_loaded hook :
  MapVisualization.key_invalid (Some key) = false ->
  (MapVisualization.head_scripts
     (MapVisualization.page
        (MapVisualization.run center zoom (Some key) [MapVisualization.Mount]
           (MapVisualization.initial maps_loaded hook)))
   = [ {| MapVisualization.src_key := key; MapVisualization.script_load := 0 |} ]
   /\ MapVisualization.comp
        (MapVisualization.run center zoom (Some key) [MapVisualization.Mount]
           (MapVisualization.initial maps_loaded hook))
      = {| MapVisualization.inst := 1;
           MapVisualization.mapRef_current := true;
           MapVisualization.googleMap := None;
           MapVisualization.markersRef := [];
           MapVisualization.infoWindowRef := None;
           MapVisualization.mapLoadError := None |})
  /\ (forall defines_maps,
        MapVisualization.comp
          (MapVisualization.run center zoom (Some key)
             [MapVisualization.Mount;
              MapVisualization.ScriptLoaded 0 defines_maps]
             (MapVisualization.initial maps_loaded hook))
        = if maps_loaded || defines_maps then
            {| MapVisualization.inst := 1;
               MapVisualization.mapRef_current := true;
               MapVisualization.googleMap :=
                 Some {| MapVisualization.center := center;
                         MapVisualization.zoom := zoom;
                         MapVisualization.calls := [] |};
               MapVisualization.markersRef := [];
               MapVisualization.infoWindowRef :=
                 Some {| MapVisualization.content := None;
                         MapVisualization.anchor := None |};
               MapVisualization.mapLoadError := None |}
          else
            {| MapVisualization.inst := 1;
               MapVisualization.mapRef_current := true;
               MapVisualization.googleMap := None;
               MapVisualization.markersRef := [];
               MapVisualization.infoWindowRef := None;
               MapVisualization.mapLoadError :=
                 Some MapVisualization.not_found_message |})
  /\ (forall e,
        MapVisualization.comp
          (MapVisualization.run center zoom (Some key)
             [MapVisualization.Mount; MapVisualization.ScriptFailed 0 e]
             (MapVisualization.initial maps_loaded hook))
        = {| MapVisualization.inst := 1;
             MapVisualization.mapRef_current := true;
             MapVisualization.googleMap := None;
             MapVisualization.markersRef := [];
             MapVisualization.infoWindowRef := None;
             MapVisualization.mapLoadError :=
               Some (MapVisualization.script_error_message
                       (MapVisualization.detailedErrorMessage e)) |})
  /\ MapVisualization.comp
       (MapVisualization.run center zoom (Some key)
          [MapVisualization.Mount; MapVisualization.AuthFailed]
          (MapVisualization.initial maps_loaded hook))
     = {| MapVisualization.inst := 1;
          MapVisualization.mapRef_current := true;
          MapVisualization.googleMap := None;
          MapVisualization.markersRef := [];
          MapVisualization.infoWindowRef := None;
          MapVisualization.mapLoadError :=
            Some MapVisualization.auth_error_message |}
  /\ (forall ev,
        (exists d, ev = MapVisualization.ScriptLoaded 0 d)
        \/ (exists e, ev = MapVisualization.ScriptFailed 0 e)
        \/ ev = MapVisualization.AuthFailed ->
        MapVisualization.globalGoogleMapsLoadingPromise
          (MapVisualization.page
             (MapVisualization.run center zoom (Some key)
                [MapVisualization.Mount; ev]
                (MapVisualization.initial maps_loaded hook))) = None).
Proof.
  intros Hkey.
  pose proof (mount_valid_key center zoom key maps_loaded hook Hkey) as Hmount.
  split_and!; [| |intros defines_maps|intros e| |intros ev Hev];
    rewrite !run_mount_first, Hmount.
  - done.
  - done.
  - by destruct maps_loaded, defines_maps, hook.
  - by destruct hook.
  - by destruct hook.
  - destruct Hev as [[d ->]|[[e ->]| ->]].
    + by destruct maps_loaded, d, hook.
    + by destruct hook.
    + by destruct hook.
Qed.

Lemma first_load_outcomes_witness :
  MapVisualization.googleMap
    (MapVisualization.comp
       (MapVisualization.run sample_center MapVisualization.num_10
          (Some "maps-key")
          [MapVisualization.Mount; MapVisualization.ScriptLoaded 0 true]
          (MapVisualization.initial false None)))
  = Some {| MapVisualization.center := sample_center;
            MapVisualization.zoom := MapVisualization.num_10;
            MapVisualization.calls := [] |}.
Proof.
  destruct (first_load_outcomes sample_center MapVisualization.num_10
              "maps-key" false None eq_refl) as (_ & Hload & _).
  rewrite (Hload true). reflexivity.
Defined.

(** ** After an authentication failure *)

Lemma step_auth_failed_state center zoom API_KEY key maps_loaded hook ev :
  first_script_event ev ->
  exists maps_loaded',
    MapVisualization.step center zoom API_KEY
      (auth_failed_state key maps_loaded hook) ev
    = auth_failed_state key maps_loaded' hook.
Proof.
  destruct ev as [| |l d|l e|]; simpl; try done.
  - intros ->. destruct d; by eexists.
  - intros ->. by eexists.
  - intros _. exists maps_loaded. by destruct hook as [[n|[|l]]|].
Qed.

(** X11.  Once the vendor has reported an authentication failure for the
    first load, the events of that script that come later change nothing
    the user sees or other code relies on: the authentication error stays
    on display, no map is built even if the SDK arrives, the hook found at
    the start is back in [window], and no further script element is made. *)
Theorem auth_failure_is_final center zoom key maps_loaded hook evs :
  MapVisualization.key_invalid (Some key) = false ->
  Forall first_script_event evs ->
  exists maps_loaded',
    MapVisualization.run center zoom (Some key)
      (MapVisualization.Mount :: MapVisualization.AuthFailed :: evs)
      (MapVisualization.initial maps_loaded hook)
    = auth_failed_state key maps_loaded' hook.
Proof.
  intros Hkey Hevs. rewrite run_mount_first, mount_valid_key by done.
  assert (MapVisualization.run center zoom (Some key)
            (MapVisualization.AuthFailed :: evs)
            {| MapVisualization.page :=
                 {| MapVisualization.google_maps := maps_loaded;
                    MapVisualization.gm_authFailure :=
                      Some (MapVisualization.Override 0);
                    MapVisualization.head_scripts :=
                      [ {| MapVisualization.src_key := key;
                           MapVisualization.script_load := 0 |} ];
                    MapVisualization.created_scripts := 1;
                    MapVisualization.globalGoogleMapsLoadingPromise := Some 0;
                    MapVisualization.originalGmAuthFailure := hook;
                    MapVisualization.loads :=
                      [ {| MapVisualization.load_instance := 1;
                           MapVisualization.isAuthFailureTriggered := false;
                           MapVisualization.promise := MapVisualization.Pending;
                           MapVisualization.waiters := [1] |} ] |};
               MapVisualization.comp :=
                 {| MapVisualization.inst := 1;
                    MapVisualization.mapRef_current := true;
                    MapVisualization.googleMap := None;
                    MapVisualization.markersRef := [];
                    MapVisualization.infoWindowRef := None;
                    MapVisualization.mapLoadError := None |} |}
          = MapVisualization.run center zoom (Some key) evs
              (auth_failed_state key maps_loaded hook)) as ->.
  { by destruct hook. }
  revert maps_loaded.
  induction Hevs as [|ev evs Hev _ IH]; intros maps_loaded; [by eexists|].
  destruct (step_auth_failed_state center zoom (Some key) key maps_loaded
              hook ev Hev) as [m' Hstep].
  simpl. rewrite Hstep. apply IH.
Qed.

Lemma auth_failure_is_final_witness :
  exists maps_loaded',
    MapVisualization.run sample_center MapVisualization.num_10 (Some "maps-key")
      [MapVisualization.Mount; MapVisualization.AuthFailed;
       MapVisualization.ScriptLoaded 0 true; MapVisualization.AuthFailed;
       MapVisualization.ScriptFailed 0 MapVisualization.ErrOther]
      (MapVisualization.initial false (Some (MapVisualization.Foreign 7)))
    = auth_failed_state "maps-key" maps_loaded'
        (Some (MapVisualization.Foreign 7)).
Proof.
  apply (auth_failure_is_final sample_center MapVisualization.num_10
           "maps-key" false (Some (MapVisualization.Foreign 7))
           [MapVisualization.ScriptLoaded 0 true; MapVisualization.AuthFailed;
            MapVisualization.ScriptFailed 0 MapVisualization.ErrOther]).
  - reflexivity.
  - repeat constructor.
Defined.

(** ** Markers and the life of the component *)

Lemma initMap_of_markers center zoom i st :
  MapVisualization.markersRef
    (MapVisualization.comp (MapVisualization.initMap_of center zoom i st))
  = MapVisualization.markersRef (MapVisualization.comp st).
Proof.
  unfold MapVisualization.initMap_of, MapVisualization.initMap.
  destruct (_ && _); [|done]. by destruct (_ && _).
Qed.

Lemma settle_markers center zoom l outcome st :
  MapVisualization.markersRef
    (MapVisualization.comp (MapVisualization.settle center zoom l outcome st))
  = MapVisualization.markersRef (MapVisualization.comp st).
Proof.
  unfold MapVisualization.settle.
  destruct (MapVisualization.loads (MapVisualization.page st) !! l)
    as [L|]; [|done].
  destruct (MapVisualization.promise L); try done.
  destruct outcome; try done.
  generalize (MapVisualization.waiters L). intros ws.
  assert (forall s,
            MapVisualization.markersRef
              (MapVisualization.comp
                 (fold_left
                    (fun s w => MapVisualization.initMap_of center zoom w s)
                    ws s))
            = MapVisualization.markersRef (MapVisualization.comp s)) as Hfold.
  { induction ws as [|w ws IH]; intros s; simpl; [done|].
    by rewrite IH, initMap_of_markers. }
  by rewrite Hfold.
Qed.

Lemma setMapLoadError_of_markers i e st :
  MapVisualization.markersRef
    (MapVisualization.comp (MapVisualization.setMapLoadError_of i e st))
  = MapVisualization.markersRef (MapVisualization.comp st).
Proof. unfold MapVisualization.setMapLoadError_of. by destruct (_ && _). Qed.

(** No event of the life of the component makes a marker. *)
Lemma step_no_markers center zoom API_KEY st ev :
  MapVisualization.markersRef (MapVisualization.comp st) = [] ->
  MapVisualization.markersRef
    (MapVisualization.comp (MapVisualization.step center zoom API_KEY st ev))
  = [].
Proof.
  intros Hm. destruct ev as [| |l d|l e|]; simpl.
  - unfold MapVisualization.mount, MapVisualization.mount_effect,
      MapVisualization.loadGoogleMapsScript.
    destruct (MapVisualization.mapRef_current (MapVisualization.comp st));
      [done|]. simpl. rewrite andb_false_r.
    destruct (MapVisualization.globalGoogleMapsLoadingPromise
                (MapVisualization.page st)); [done|].
    by destruct (MapVisualization.key_invalid API_KEY).
  - unfold MapVisualization.unmount.
    by destruct (MapVisualization.mapRef_current (MapVisualization.comp st)).
  - destruct (MapVisualization.loads (MapVisualization.page st) !! l)
      as [L|] eqn:HL; [|done].
    unfold MapVisualization.script_onload.
    replace (MapVisualization.loads
               (MapVisualization.page
                  (if d
                   then MapVisualization.set_page
                          (MapVisualization.set_google_maps true
                             (MapVisualization.page st)) st
                   else st)) !! l) with (Some L) by (by destruct d).
    destruct (MapVisualization.isAuthFailureTriggered L); [by destruct d|].
    rewrite settle_markers. simpl.
    destruct (MapVisualization.google_maps _); simpl;
      rewrite ?setMapLoadError_of_markers; by destruct d.
  - unfold MapVisualization.script_onerror.
    destruct (MapVisualization.loads (MapVisualization.page st) !! l)
      as [L|]; [|done].
    destruct (MapVisualization.isAuthFailureTriggered L); [done|].
    rewrite settle_markers. simpl. by rewrite setMapLoadError_of_markers.
  - destruct (MapVisualization.gm_authFailure (MapVisualization.page st))
      as [[n|l]|]; try done.
    unfold MapVisualization.auth_failure_handler.
    destruct (MapVisualization.loads (MapVisualization.page st) !! l)
      as [L|]; [|done].
    destruct (MapVisualization.isAuthFailureTriggered L); [done|].
    rewrite settle_markers. simpl. by rewrite setMapLoadError_of_markers.
Qed.

Lemma mount_no_map center zoom API_KEY st :
  MapVisualization.mapRef_current (MapVisualization.comp st) = false ->
  MapVisualization.googleMap
    (MapVisualization.comp (MapVisualization.mount center zoom API_KEY st))
  = None
  /\ MapVisualization.markersRef
       (MapVisualization.comp (MapVisualization.mount center zoom API_KEY st))
     = [].
Proof.
  intros Hoff.
  unfold MapVisualization.mount, MapVisualization.mount_effect,
    MapVisualization.loadGoogleMapsScript.
  rewrite Hoff. simpl. rewrite andb_false_r.
  destruct (MapVisualization.globalGoogleMapsLoadingPromise
              (MapVisualization.page st)); [done|].
  by destruct (MapVisualization.key_invalid API_KEY).
Qed.

(** X12.  When the component is put on screen, the marker effect and the
    pan effect of that first render do nothing, whatever the stores and
    the selection, because the map is not built yet; and nothing that
    happens to the load afterwards makes a marker.  So once the map is
    built it shows no marker until the marker effect runs again. *)
Theorem no_markers_until_effect_reruns center zoom API_KEY p evs st :
  MapVisualization.mapRef_current (MapVisualization.comp st) = false ->
  MapVisualization.marker_effect p
    (MapVisualization.mount center zoom API_KEY st)
  = MapVisualization.mount center zoom API_KEY st
  /\ MapVisualization.pan_effect p
       (MapVisualization.mount center zoom API_KEY st)
     = MapVisualization.mount center zoom API_KEY st
  /\ MapVisualization.markersRef
       (MapVisualization.comp
          (MapVisualization.run center zoom API_KEY evs
             (MapVisualization.pan_effect p
                (MapVisualization.marker_effect p
                   (MapVisualization.mount center zoom API_KEY st)))))
     = [].
Proof.
  intros Hoff.
  destruct (mount_no_map center zoom API_KEY st Hoff) as [Hmap Hmarkers].
  assert (MapVisualization.marker_effect p
            (MapVisualization.mount center zoom API_KEY st)
          = MapVisualization.mount center zoom API_KEY st) as Heff.
  { unfold MapVisualization.marker_effect. by rewrite Hmap. }
  assert (MapVisualization.pan_effect p
            (MapVisualization.mount center zoom API_KEY st)
          = MapVisualization.mount center zoom API_KEY st) as Hpan.
  { unfold MapVisualization.pan_effect. by rewrite Hmap. }
  split_and!; try done. rewrite Heff, Hpan.
  revert Hmarkers. generalize (MapVisualization.mount center zoom API_KEY st).
  induction evs as [|ev evs IH]; intros s Hs; simpl; [done|].
  by apply IH, step_no_markers.
Qed.

Lemma no_markers_until_effect_reruns_witness :
  MapVisualization.markersRef
    (MapVisualization.comp
       (MapVisualization.run sample_center MapVisualization.num_10
          (Some "maps-key") [MapVisualization.ScriptLoaded 0 true]
          (MapVisualization.pan_effect twin_props
             (MapVisualization.marker_effect twin_props
                (MapVisualization.mount sample_center MapVisualization.num_10
                   (Some "maps-key") (MapVisualization.initial false None))))))
  = [].
Proof.
  destruct (no_markers_until_effect_reruns sample_center
              MapVisualization.num_10 (Some "maps-key") twin_props
              [MapVisualization.ScriptLoaded 0 true]
              (MapVisualization.initial false None) eq_refl) as (_ & _ & H).
  exact H.
Defined.

(** The map of the witness is built, and a second run of the marker
    effect does make the markers. *)
Example markers_after_second_effect :
  is_Some
    (MapVisualization.googleMap (MapVisualization.comp (ready_map None)))
  /\ length
       (MapVisualization.markersRef
          (MapVisualization.comp
             (MapVisualization.marker_effect twin_props (ready_map None))))
     = 2.
Proof. split; [by eexists|reflexivity]. Qed.

(** ** The map view after the marker effect *)

Lemma sync_pass_overlay selected markers : forall i iw,
  (MapVisualization.sync_pass selected i markers iw).2
  = match iw with
    | None => None
    | Some w =>
        match last_match selected i markers with
        | Some j =>
            Some {| MapVisualization.content := selected;
                    MapVisualization.anchor := Some j |}
        | None => Some w
        end
    end.
Proof.
  induction markers as [|m rest IH]; intros i iw; simpl.
  - by destruct iw.
  - destruct (MapVisualization.matches_selected selected m).
    + specialize (IH (S i)
                    match iw with
                    | Some _ =>
                        Some {| MapVisualization.content := selected;
                                MapVisualization.anchor := Some i |}
                    | None => None
                    end).
      destruct (MapVisualization.sync_pass selected (S i) rest _)
        as [rest' iw2]. simpl in *. rewrite IH.
      destruct iw; [|done]. by destruct (last_match selected (S i) rest).
    + specialize (IH (S i) iw).
      destruct (MapVisualization.sync_pass selected (S i) rest iw)
        as [rest' iw2]. simpl in *. rewrite IH.
      destruct iw; [|done]. by destruct (last_match selected (S i) rest).
Qed.

Lemma last_match_spec selected markers : forall i,
  match last_match selected i markers with
  | Some j =>
      exists k m,
        j = i + k /\ markers !! k = Some m
        /\ MapVisualization.matches_selected selected m = true
        /\ forall k' m',
             k < k' -> markers !! k' = Some m' ->
             MapVisualization.matches_selected selected m' = false
  | None =>
      forall k m,
        markers !! k = Some m ->
        MapVisualization.matches_selected selected m = false
  end.
Proof.
  induction markers as [|m rest IH]; intros i; simpl; [done|].
  specialize (IH (S i)).
  destruct (last_match selected (S i) rest) as [j|].
  - destruct IH as (k & m' & -> & Hk & Hmatch & Hlater).
    exists (S k), m'. split_and!; [lia|done|done|].
    intros [|k'] m'' Hlt Hk'; [lia|]. apply (Hlater k'); [lia|done].
  - destruct (MapVisualization.matches_selected selected m) eqn:Hm.
    + exists 0, m. split_and!; [lia|done|done|].
      intros [|k'] m' Hlt Hk'; [lia|]. by apply (IH k').
    + intros [|k] m' Hk; [by injection Hk as <-|]. by apply (IH k).
Qed.

Lemma marker_effect_comp p st gm :
  MapVisualization.googleMap (MapVisualization.comp st) = Some gm ->
  MapVisualization.google_maps (MapVisualization.page st) = true ->
  MapVisualization.infoWindowRef
    (MapVisualization.comp (MapVisualization.marker_effect p st))
  = (MapVisualization.sync_pass (MapVisualization.selectedStore p) 0
       (map (MapVisualization.create_marker (MapVisualization.selectedStore p))
          (MapVisualization.stores p))
       (MapVisualization.infoWindowRef (MapVisualization.comp st))).2
  /\ MapVisualization.googleMap
       (MapVisualization.comp (MapVisualization.marker_effect p st))
     = Some
         (if bool_decide (0 < length (MapVisualization.stores p))
             && negb (bool_decide (is_Some (MapVisualization.selectedStore p)))
          then
            MapVisualization.map_call
              (MapVisualization.fitBounds
                 (map store_point (MapVisualization.stores p))) gm
          else gm)
  /\ MapVisualization.page (MapVisualization.marker_effect p st)
     = MapVisualization.page st.
Proof.
  intros Hmap Hsdk. unfold MapVisualization.marker_effect.
  rewrite Hmap, Hsdk.
  by destruct (MapVisualization.sync_pass _ _ _ _) as [markers' iw].
Qed.

Lemma selected_icon_iff_matches selected store :
  MapVisualization.icon
    (MapVisualization.setIcon
       (if MapVisualization.matches_selected selected
             (MapVisualization.create_marker selected store)
        then MapVisualization.selected_icon
        else MapVisualization.unselected_icon)
       (MapVisualization.create_marker selected store))
  = MapVisualization.selected_icon
  <-> MapVisualization.matches_selected selected
        (MapVisualization.create_marker selected store) = true.
Proof.
  simpl. destruct (MapVisualization.matches_selected _ _); [done|].
  split; discriminate.
Qed.

(** X13.  When the map is ready and has its overlay, after the marker
    effect the overlay is on the last marker that carries the selected
    icon, filled from the selected store; and when no marker carries the
    selected icon the overlay is left as it was. *)
Theorem overlay_on_last_selected_marker p st gm w :
  MapVisualization.googleMap (MapVisualization.comp st) = Some gm ->
  MapVisualization.google_maps (MapVisualization.page st) = true ->
  MapVisualization.infoWindowRef (MapVisualization.comp st) = Some w ->
  (forall j,
     MapVisualization.icon
       <$> MapVisualization.markersRef
             (MapVisualization.comp (MapVisualization.marker_effect p st)) !! j
     = Some MapVisualization.selected_icon ->
     (forall k,
        j < k ->
        MapVisualization.icon
          <$> MapVisualization.markersRef
                (MapVisualization.comp (MapVisualization.marker_effect p st)) !! k
        <> Some MapVisualization.selected_icon) ->
     MapVisualization.infoWindowRef
       (MapVisualization.comp (MapVisualization.marker_effect p st))
     = Some {| MapVisualization.content := MapVisualization.selectedStore p;
               MapVisualization.anchor := Some j |})
  /\ ((forall k,
         MapVisualization.icon
           <$> MapVisualization.markersRef
                 (MapVisualization.comp (MapVisualization.marker_effect p st)) !! k
         <> Some MapVisualization.selected_icon) ->
      MapVisualization.infoWindowRef
        (MapVisualization.comp (MapVisualization.marker_effect p st))
      = Some w).
Proof.
  intros Hmap Hsdk Hw.
  destruct (marker_effect_comp p st gm Hmap Hsdk) as (-> & _ & _).
  rewrite (marker_effect_markers p st gm Hmap Hsdk).
  rewrite sync_pass_overlay, Hw.
  assert (forall k,
            MapVisualization.icon
              <$> ((fun store =>
                      MapVisualization.setIcon
                        (if MapVisualization.matches_selected
                              (MapVisualization.selectedStore p)
                              (MapVisualization.create_marker
                                 (MapVisualization.selectedStore p) store)
                         then MapVisualization.selected_icon
                         else MapVisualization.unselected_icon)
                        (MapVisualization.create_marker
                           (MapVisualization.selectedStore p) store))
                     <$> MapVisualization.stores p) !! k
            = Some MapVisualization.selected_icon
            <-> exists m,
                  map (MapVisualization.create_marker
                         (MapVisualization.selectedStore p))
                    (MapVisualization.stores p) !! k = Some m
                  /\ MapVisualization.matches_selected
                       (MapVisualization.selectedStore p) m = true) as Hicon.
  { intros k.
    change (map ?f ?l) with (f <$> l). rewrite !list_lookup_fmap.
    destruct (MapVisualization.stores p !! k) as [store|]; simpl.
    - split.
      + intros [= Hi]. eexists. split; [done|].
        by apply selected_icon_iff_matches; simpl.
      + intros (m & [= <-] & Hm). f_equal.
        by apply (selected_icon_iff_matches (MapVisualization.selectedStore p) store).
    - split; [done|]. by intros (m & ? & _). }
  pose proof (last_match_spec (MapVisualization.selectedStore p)
                (map (MapVisualization.create_marker
                        (MapVisualization.selectedStore p))
                   (MapVisualization.stores p)) 0) as Hlast.
  destruct (last_match _ _ _) as [j0|].
  - destruct Hlast as (k0 & m0 & -> & Hk0 & Hm0 & Hlater). simpl.
    split.
    + intros j Hj Hnone. apply Hicon in Hj as (m & Hm & Hmatch).
      destruct (Nat.lt_trichotomy j k0) as [Hlt|[->|Hgt]]; [|done|].
      * exfalso. apply (Hnone k0 Hlt). apply Hicon. by exists m0.
      * rewrite (Hlater j m Hgt Hm) in Hmatch. done.
    + intros Hnone. exfalso. apply (Hnone k0). apply Hicon. by exists m0.
  - split; [|done].
    intros j Hj _. apply Hicon in Hj as (m & Hm & Hmatch).
    by rewrite (Hlast j m Hm) in Hmatch.
Qed.

Lemma overlay_on_last_selected_marker_witness :
  MapVisualization.infoWindowRef
    (MapVisualization.comp
       (MapVisualization.marker_effect twin_props (ready_map None)))
  = Some {| MapVisualization.content := Some jakarta;
            MapVisualization.anchor := Some 1 |}.
Proof.
  destruct (overlay_on_last_selected_marker twin_props (ready_map None)
              {| MapVisualization.center := sample_center;
                 MapVisualization.zoom := MapVisualization.num_10;
                 MapVisualization.calls := [] |}
              {| MapVisualization.content := None;
                 MapVisualization.anchor := None |}
              eq_refl eq_refl eq_refl) as [Hlast _].
  apply (Hlast 1).
  - reflexivity.
  - intros [|[|k]] Hk; [lia|lia|]. vm_compute. discriminate.
Defined.

(** X14.  When the map is ready, after the marker effect a click on the
    marker at position [i] hands the shell the store at position [i] of
    the current list, so a store the markers select is always one of the
    list; with an overlay, it is opened on that marker with that store's
    metrics; and a click at a position past the last marker does nothing. *)
Theorem click_reports_store_at_index p st gm i :
  MapVisualization.googleMap (MapVisualization.comp st) = Some gm ->
  MapVisualization.google_maps (MapVisualization.page st) = true ->
  (MapVisualization.marker_click i (MapVisualization.marker_effect p st)).1
  = MapVisualization.stores p !! i
  /\ (forall s,
        MapVisualization.stores p !! i = Some s ->
        s ∈ MapVisualization.stores p
        /\ (is_Some (MapVisualization.infoWindowRef (MapVisualization.comp st)) ->
            MapVisualization.infoWindowRef
              (MapVisualization.comp
                 (MapVisualization.marker_click i
                    (MapVisualization.marker_effect p st)).2)
            = Some {| MapVisualization.content := Some s;
                      MapVisualization.anchor := Some i |}))
  /\ (MapVisualization.stores p !! i = None ->
      (MapVisualization.marker_click i (MapVisualization.marker_effect p st)).2
      = MapVisualization.marker_effect p st).
Proof.
  intros Hmap Hsdk. unfold MapVisualization.marker_click.
  rewrite (marker_effect_markers p st gm Hmap Hsdk), list_lookup_fmap.
  destruct (MapVisualization.stores p !! i) as [s|] eqn:Hi; simpl.
  - split_and!; [done| |done].
    intros s' [= <-]. split; [by eapply list_elem_of_lookup_2|].
    intros [w Hw].
    destruct (marker_effect_comp p st gm Hmap Hsdk) as (Hiw & _ & _).
    rewrite Hiw, sync_pass_overlay, Hw.
    by destruct (last_match _ _ _).
  - by split_and!.
Qed.

Lemma click_reports_store_at_index_witness :
  (MapVisualization.marker_click 1
     (MapVisualization.marker_effect twin_props (ready_map None))).1
  = Some jakarta_twin.
Proof.
  destruct (click_reports_store_at_index twin_props (ready_map None)
              {| MapVisualization.center := sample_center;
                 MapVisualization.zoom := MapVisualization.num_10;
                 MapVisualization.calls := [] |} 1 eq_refl eq_refl)
    as (H & _).
  rewrite H. reflexivity.
Defined.



(** ** Events that arrive after the unmount *)

Lemma setMapLoadError_of_off i e st :
  MapVisualization.mapRef_current (MapVisualization.comp st) = false ->
  MapVisualization.setMapLoadError_of i e st = st.
Proof. intros Hoff. unfold MapVisualization.setMapLoadError_of. by rewrite Hoff. Qed.

Lemma settle_off center zoom l outcome st :
  MapVisualization.mapRef_current (MapVisualization.comp st) = false ->
  MapVisualization.comp (MapVisualization.settle center zoom l outcome st)
  = MapVisualization.comp st.
Proof.
  intros Hoff. unfold MapVisualization.settle.
  destruct (MapVisualization.loads (MapVisualization.page st) !! l)
    as [L|]; [|done].
  destruct (MapVisualization.promise L); try done.
  destruct outcome; try done.
  generalize (MapVisualization.waiters L). intros ws.
  assert (forall s,
            MapVisualization.mapRef_current (MapVisualization.comp s) = false ->
            MapVisualization.comp
              (fold_left
                 (fun s w => MapVisualization.initMap_of center zoom w s) ws s)
            = MapVisualization.comp s) as Hfold.
  { induction ws as [|w ws IH]; intros s Hs; simpl; [done|].
    unfold MapVisualization.initMap_of at 2. rewrite Hs. simpl. by apply IH. }
  by rewrite Hfold.
Qed.

Lemma step_off center zoom API_KEY st ev :
  MapVisualization.mapRef_current (MapVisualization.comp st) = false ->
  ev <> MapVisualization.Mount ->
  MapVisualization.comp (MapVisualization.step center zoom API_KEY st ev)
  = MapVisualization.comp st.
Proof.
  intros Hoff Hev. destruct ev as [| |l d|l e|]; simpl; [done|..].
  - unfold MapVisualization.unmount. by rewrite Hoff.
  - destruct (MapVisualization.loads (MapVisualization.page st) !! l)
      as [L|] eqn:HL; [|done].
    unfold MapVisualization.script_onload.
    replace (MapVisualization.loads
               (MapVisualization.page
                  (if d
                   then MapVisualization.set_page
                          (MapVisualization.set_google_maps true
                             (MapVisualization.page st)) st
                   else st)) !! l) with (Some L) by (by destruct d).
    destruct (MapVisualization.isAuthFailureTriggered L); [by destruct d|].
    rewrite settle_off.
    + simpl. destruct (MapVisualization.google_maps _); simpl;
        rewrite ?setMapLoadError_of_off; by destruct d.
    + simpl. destruct (MapVisualization.google_maps _); simpl;
        rewrite ?setMapLoadError_of_off; by destruct d.
  - unfold MapVisualization.script_onerror.
    destruct (MapVisualization.loads (MapVisualization.page st) !! l)
      as [L|]; [|done].
    destruct (MapVisualization.isAuthFailureTriggered L); [done|].
    rewrite settle_off; simpl; by rewrite setMapLoadError_of_off.
  - destruct (MapVisualization.gm_authFailure (MapVisualization.page st))
      as [[n|l]|]; try done.
    unfold MapVisualization.auth_failure_handler.
    destruct (MapVisualization.loads (MapVisualization.page st) !! l)
      as [L|]; [|done].
    destruct (MapVisualization.isAuthFailureTriggered L); [done|].
    rewrite settle_off; simpl; by rewrite setMapLoadError_of_off.
Qed.

(** X16.  While the component is off screen, nothing that happens to a
    load it started reaches it: a load event, a script error or an
    authentication failure that arrives after the unmount builds no map,
    makes no marker and shows no error. *)
Theorem late_events_leave_component center zoom API_KEY evs : forall st,
  MapVisualization.mapRef_current (MapVisualization.comp st) = false ->
  Forall (fun ev => ev <> MapVisualization.Mount) evs ->
  MapVisualization.comp (MapVisualization.run center zoom API_KEY evs st)
  = MapVisualization.comp st.
Proof.
  induction evs as [|ev evs IH]; intros st Hoff Hevs; simpl; [done|].
  inversion Hevs as [|ev' evs' Hev Hrest]; subst.
  pose proof (step_off center zoom API_KEY st ev Hoff Hev) as Hstep.
  rewrite IH; [done| |done]. by rewrite Hstep.
Qed.

Lemma late_events_leave_component_witness :
  MapVisualization.comp
    (MapVisualization.run sample_center MapVisualization.num_10
       (Some "maps-key")
       [MapVisualization.ScriptLoaded 0 true; MapVisualization.AuthFailed]
       (MapVisualization.run sample_center MapVisualization.num_10
          (Some "maps-key")
          [MapVisualization.Mount; MapVisualization.Unmount]
          (MapVisualization.initial false None)))
  = MapVisualization.comp
      (MapVisualization.run sample_center MapVisualization.num_10
         (Some "maps-key")
         [MapVisualization.Mount; MapVisualization.Unmount]
         (MapVisualization.initial false None)).
Proof.
  apply (late_events_leave_component sample_center MapVisualization.num_10
           (Some "maps-key")
           [MapVisualization.ScriptLoaded 0 true; MapVisualization.AuthFailed]).
  - reflexivity.
  - repeat constructor; discriminate.
Defined.
